(** * ls.js: a shallow embedding of the directory lister and proofs about it

    The development follows [src/ls.js] function by function.  JavaScript
    numbers that the program only ever uses as integers (file modes, sizes,
    modification times in milliseconds) are integers of [Z], each standing
    for the Number that holds it; strings are [string]s holding the UTF-8
    bytes of the text; the two objects the program reads ([opts] and a
    [Stats]) are records; what the program obtains from its host (the file
    system, the locale, the terminal, the argument parser) is gathered in
    one record of capabilities, [Host]. *)

From Stdlib Require Import ZArith List Bool Lia.
From Stdlib Require Import Strings.String Strings.Ascii.
From Stdlib Require Import Numbers.DecimalString Numbers.DecimalZ.
From Stdlib Require Import Numbers.DecimalPos.
From Stdlib Require Import Sorting.Sorted Sorting.Permutation.
Import ListNotations.

Open Scope string_scope.
Open Scope Z_scope.

(** ** JavaScript primitives used by the program *)

Module JS.

(** [ToInt32] of the language standard on an integer-valued number: the
    operand of [&] and [>>] is wrapped into the signed 32-bit range. *)
Definition ToInt32 (z : Z) : Z := (z + 2 ^ 31) mod 2 ^ 32 - 2 ^ 31.

(** [a & b] *)
Definition band (a b : Z) : Z := Z.land (ToInt32 a) (ToInt32 b).

(** [a >> n]: the shift count is taken modulo 32. *)
Definition shr (a n : Z) : Z := Z.shiftr (ToInt32 a) (Z.land (ToInt32 n) 31).

(** A number used as a condition is true unless it is zero. *)
Definition truthy (z : Z) : bool := negb (z =? 0).

(** *** Number.prototype.toString on integers

    An integer [z] stands for the Number that holds it.  Up to 2^53 in
    magnitude every integer is a Number; above, the Numbers are the
    multiples of a power of two, the unit in the last place, that leave 53
    significant bits. *)

(** The decimal digits of an integer, with a minus sign when negative. *)
Definition digitsOf (z : Z) : string := NilZero.string_of_int (Z.to_int z).

(** The binary exponent of the unit in the last place at [v > 0]. *)
Definition ulpExponent (v : Z) : Z := Z.max 0 (Z.log2 v - 52).

(** The Number nearest to [v > 0], a tie going to the even significand. *)
Definition toNumber (v : Z) : Z :=
  let e := ulpExponent v in
  let q := v / 2 ^ e in
  let r := v mod 2 ^ e in
  let up := if 2 * r <? 2 ^ e then false
            else if 2 ^ e <? 2 * r then true
            else Z.odd q in
  (if up then q + 1 else q) * 2 ^ e.

(** Reading the decimal [x] gives the Number [v > 0]: [x] lies between the
    midpoints to the two neighbours of [v], the midpoints included when the
    significand of [v] is even.  The neighbour below a power of two is at
    half the distance. *)
Definition readsAs (v x : Z) : bool :=
  let e := ulpExponent v in
  let closed := Z.even (v / 2 ^ e) in
  let up := 2 ^ e in
  let down := if v =? 2 ^ (52 + e) then 2 ^ (e - 1) else 2 ^ e in
  if x <=? v then
    if closed then 2 * (v - x) <=? down else 2 * (v - x) <? down
  else
    if closed then 2 * (x - v) <=? up else 2 * (x - v) <? up.

(** The multiple of [10 ^ t] that reads as [v] and is nearest to it, when
    there is one. *)
Definition candidate (v t : Z) : option Z :=
  let p := 10 ^ t in
  let below := v / p * p in
  let above := below + p in
  match readsAs v below, readsAs v above with
  | true, true => Some (if v - below <=? above - v then below else above)
  | true, false => Some below
  | false, true => Some above
  | false, false => None
  end.

(** From the candidate [x] with [t] trailing zeros, the candidate with the
    most trailing zeros: the fewest significant digits. *)
Fixpoint shortest (fuel : nat) (v t x : Z) : Z * Z :=
  match fuel with
  | O => (x, t)
  | S fuel' =>
      match candidate v (t + 1) with
      | Some x' => shortest fuel' v (t + 1) x'
      | None => (x, t)
      end
  end.

(** The digits [s] with [n] digits before the decimal point in all:
    written out when [n <= 21], and as [d.ddde+(n-1)] otherwise. *)
Definition formatDigits (x t : Z) : string :=
  let n := Z.of_nat (String.length (digitsOf x)) in
  if n <=? 21 then digitsOf x
  else
    let exponent := "e+" ++ digitsOf (n - 1) in
    match digitsOf (x / 10 ^ t) with
    | String d EmptyString => String d exponent
    | String d rest => String d ("." ++ rest ++ exponent)
    | EmptyString => exponent
    end.

(** [String(v)] for [v > 0]: a safe integer is its own shortest decimal;
    above 2^53 the decimal with the fewest significant digits that reads
    back as the same Number is taken, the nearest one if there are
    several. *)
Definition toStringPositive (v : Z) : string :=
  if v <? 2 ^ 53 then digitsOf v
  else
    let v := toNumber v in
    let (x, t) := shortest (Z.to_nat (Z.log2 v)) v 0 v in
    formatDigits x t.

(** [n.toString()] for an integer-valued [n] *)
Definition toString (z : Z) : string :=
  if z =? 0 then "0"
  else if z <? 0 then "-" ++ toStringPositive (- z)
  else toStringPositive z.

(** [Math.round(n / d)] for an integer [n] and a power of two [d]: the
    quotient is exact in floating point and [Math.round] rounds it to the
    nearest integer, a half towards plus infinity, that is
    [floor (n / d + 1/2)]. *)
Definition roundDiv (n d : Z) : Z := (2 * n + d) / (2 * d).

(** [arr[i]] inside [Array.prototype.join]: an index out of range reads
    [undefined], which [join] renders as the empty string. *)
Definition index (arr : list string) (i : Z) : string :=
  if i <? 0 then "" else nth (Z.to_nat i) arr "".

(** [arr.join(sep)] *)
Definition join (sep : string) (arr : list string) : string :=
  String.concat sep arr.

(** [s.startsWith(p)] *)
Definition startsWith (p s : string) : bool := String.prefix p s.

(** [' '.repeat n] *)
Fixpoint spaces (n : nat) : string :=
  match n with
  | O => ""
  | S n' => String " " (spaces n')
  end.

(** [s.padStart(n)]: spaces are put in front of [s] until it is [n] long. *)
Definition padStart (n : nat) (s : string) : string :=
  spaces (n - String.length s) ++ s.

End JS.

(** Octal constants of the source, in decimal. *)
Definition o40000 : Z := 16384.   (* 0o40000 *)
Definition o700 : Z := 448.       (* 0o700 *)
Definition o070 : Z := 56.        (* 0o070 *)
Definition o007 : Z := 7.         (* 0o007 *)
Definition o111 : Z := 73.        (* 0o111 *)

(** ** formatPermissions *)

Definition perms : list string :=
  ["---"; "--x"; "-w-"; "-wx"; "r--"; "r-x"; "rw-"; "rwx"].

Definition formatPermissions (mode : Z) : string :=
  JS.join ""
    [ if JS.truthy (JS.band mode o40000) then "d" else "-";
      JS.index perms (JS.shr (JS.band mode o700) 6);
      JS.index perms (JS.shr (JS.band mode o070) 3);
      JS.index perms (JS.band mode o007) ].

(** ** formatSize *)

Definition formatSize (size : Z) (humanReadable : bool) : string :=
  if negb humanReadable then JS.toString size
  else if size <? 1024 then JS.toString size
  else if size <? 1024 * 1024 then
    JS.toString (JS.roundDiv size 1024) ++ "K"
  else if size <? 1024 * 1024 * 1024 then
    JS.toString (JS.roundDiv size (1024 * 1024)) ++ "M"
  else if size <? 1024 * 1024 * 1024 * 1024 then
    JS.toString (JS.roundDiv size (1024 * 1024 * 1024)) ++ "G"
  else JS.toString (JS.roundDiv size (1024 * 1024 * 1024 * 1024)) ++ "T".

(** ** The objects the program works on *)

(** The fields of a [Stats] object the program reads.  The four [is...]
    fields are the results of the methods of the same names. *)
Record Stats := {
  mode : Z;
  size : Z;
  mtime : Z;                (* stats.mtime.getTime(), in milliseconds *)
  isDirectory : bool;
  isSymbolicLink : bool;
  isSocket : bool;
  isFIFO : bool
}.

(** An element of [items]: [{ name, stats, fullPath }]. *)
Record Item := {
  name : string;
  stats : Stats;
  fullPath : string
}.

(** The [values] object of [parseArgs], one field per entry of [options]. *)
Record Opts := {
  opt_long : bool;
  opt_all : bool;
  opt_classify : bool;
  opt_color : string;
  opt_size : bool;
  opt_time : bool;
  opt_reverse : bool;
  opt_human_readable : bool;
  opt_help : bool
}.

Definition set_classify (b : bool) (o : Opts) : Opts :=
  {| opt_long := opt_long o; opt_all := opt_all o; opt_classify := b;
     opt_color := opt_color o; opt_size := opt_size o; opt_time := opt_time o;
     opt_reverse := opt_reverse o;
     opt_human_readable := opt_human_readable o; opt_help := opt_help o |}.

Definition set_color (c : string) (o : Opts) : Opts :=
  {| opt_long := opt_long o; opt_all := opt_all o;
     opt_classify := opt_classify o;
     opt_color := c; opt_size := opt_size o; opt_time := opt_time o;
     opt_reverse := opt_reverse o;
     opt_human_readable := opt_human_readable o; opt_help := opt_help o |}.

(** The defaults of the [options] table. *)
Definition defaults : Opts :=
  {| opt_long := false; opt_all := false; opt_classify := false;
     opt_color := "auto"; opt_size := false; opt_time := false;
     opt_reverse := false; opt_human_readable := false; opt_help := false |}.

(** What the program asks of its host.  A call that throws is a left
    injection carrying [err.message]. *)
Record Host := {
  localeCompare : string -> string -> Z;       (* a.localeCompare(b) *)
  toLocaleDateString : Z -> string;
  toLocaleTimeString : Z -> string;            (* hour and minute, 2-digit *)
  path_join : string -> string -> string;      (* join of 'path' *)
  readdir : string -> string + list string;
  stat : string -> string + Stats;
  isTTY : bool;        (* process.stdout.isTTY as a condition: true on a
                          terminal, undefined, which counts as false,
                          otherwise *)
  LS_OPTIONS : option string;                  (* process.env.LS_OPTIONS *)
  parseArgs : list string -> string + (Opts * list string)
}.

(** ** Array.prototype.sort and sortItems *)

Section ArraySort.

Context {A : Type}.
Variable compareFn : A -> A -> Z.

(** [x] stood before every element of the sorted [l]: it goes in front of
    the first element it does not have to follow, so equal elements keep
    their order. *)
Fixpoint insert (x : A) (l : list A) : list A :=
  match l with
  | [] => [x]
  | y :: l' => if 0 <? compareFn x y then y :: insert x l' else x :: l
  end.

(** [arr.sort(compareFn)]: the standard asks for a stable sort, and for a
    consistent comparison every stable sort returns the same array; this is
    the insertion sort. *)
Fixpoint Array_sort (arr : list A) : list A :=
  match arr with
  | [] => []
  | x :: l => insert x (Array_sort l)
  end.

(** [a] may stand before [b]. *)
Definition mayPrecede (a b : A) : Prop := compareFn a b <= 0.

End ArraySort.

Definition bySize (a b : Item) : Z := size (stats b) - size (stats a).
Definition byTime (a b : Item) : Z := mtime (stats b) - mtime (stats a).
Definition byName (h : Host) (a b : Item) : Z :=
  localeCompare h (name a) (name b).

Definition sortItems (h : Host) (items : list Item) (opts : Opts)
  : list Item :=
  let sortedItems :=
    if opt_size opts then Array_sort bySize items
    else if opt_time opts then Array_sort byTime items
    else Array_sort (byName h) items in
  if opt_reverse opts then rev sortedItems else sortedItems.

(** ** formatDate *)

Definition formatDate (h : Host) (date : Z) : string :=
  toLocaleDateString h date ++ " " ++ toLocaleTimeString h date.

(** ** Colours and classification *)

Module colors.
Definition esc : string := String "027"%char "".
Definition reset : string := esc ++ "[0m".
Definition directory : string := esc ++ "[34m".
Definition executable : string := esc ++ "[32m".
Definition symlink : string := esc ++ "[36m".
Definition socket : string := esc ++ "[35m".
Definition fifo : string := esc ++ "[33m".
Definition regular : string := esc ++ "[0m".
End colors.

Definition getFileTypeIndicator (stats : Stats) : string :=
  if isDirectory stats then "/"
  else if isSymbolicLink stats then "@"
  else if isSocket stats then "="
  else if isFIFO stats then "|"
  else if JS.truthy (JS.band (mode stats) o111) then "*"
  else "".

Definition getFileColor (stats : Stats) : string :=
  if isDirectory stats then colors.directory
  else if isSymbolicLink stats then colors.symlink
  else if isSocket stats then colors.socket
  else if isFIFO stats then colors.fifo
  else if JS.truthy (JS.band (mode stats) o111) then colors.executable
  else colors.regular.

Definition shouldUseColor (h : Host) (colorOption : string) : bool :=
  if (colorOption =? "always")%string then true
  else if (colorOption =? "never")%string then false
  else isTTY h.

(** ** The console and the end of the process *)

(** What the process has written so far, oldest line first. *)
Record Console := {
  stdout : list string;
  stderr : list string
}.

Definition console0 : Console := {| stdout := []; stderr := [] |}.

(** A computation either goes on with a value or has called
    [process.exit(code)], after which nothing else runs. *)
Inductive Outcome (A : Type) : Type :=
| Done (a : A)
| Exited (code : Z).
Arguments Done {A} a.
Arguments Exited {A} code.

Definition IO (A : Type) : Type := Console -> Outcome A * Console.

Definition ret {A} (a : A) : IO A := fun c => (Done a, c).

Definition bind {A B} (m : IO A) (k : A -> IO B) : IO B :=
  fun c =>
    match m c with
    | (Done a, c') => k a c'
    | (Exited code, c') => (Exited code, c')
    end.

Notation "x <- m ;; k" := (bind m (fun x => k))
  (at level 61, m at next level, right associativity).
Notation "m ;; k" := (bind m (fun _ => k))
  (at level 61, right associativity).

Definition console_log (line : string) : IO unit :=
  fun c => (Done tt, {| stdout := stdout c ++ [line]; stderr := stderr c |}).

Definition console_error (line : string) : IO unit :=
  fun c => (Done tt, {| stdout := stdout c; stderr := stderr c ++ [line] |}).

Definition process_exit {A} (code : Z) : IO A := fun c => (Exited code, c).

(** The exit status of a process whose main computation ended in [o]: a
    process that runs to its end without [process.exit] exits with 0. *)
Definition exitCode {A} (o : Outcome A) : Z :=
  match o with
  | Done _ => 0
  | Exited code => code
  end.

(** [for (const x of xs) body(x)] *)
Fixpoint forOf {A} (xs : list A) (body : A -> IO unit) : IO unit :=
  match xs with
  | [] => ret tt
  | x :: xs' => body x ;; forOf xs' body
  end.

(** ** parseDefaultOptions *)

(** Strings are held as their UTF-8 bytes.  The class [\s] of a regular
    expression is the white space and the line terminators of the
    language: U+0009 to U+000D and U+0020, one byte each; U+00A0, two
    bytes; U+1680, U+2000 to U+200A, U+2028, U+2029, U+202F, U+205F, U+3000
    and U+FEFF, three bytes each. *)
Definition isByte (n : nat) (c : ascii) : bool := (nat_of_ascii c =? n)%nat.

Definition isSpace (c : ascii) : bool :=
  let n := nat_of_ascii c in
  ((n =? 32) || ((9 <=? n) && (n <=? 13)))%nat.

Definition isSpace2 (c1 c2 : ascii) : bool :=
  isByte 194 c1 && isByte 160 c2.                               (* U+00A0 *)

Definition isSpace3 (c1 c2 c3 : ascii) : bool :=
  let n3 := nat_of_ascii c3 in
  (isByte 225 c1 && isByte 154 c2 && isByte 128 c3)             (* U+1680 *)
  || (isByte 226 c1 && isByte 128 c2 &&
      (((128 <=? n3) && (n3 <=? 138))%nat               (* U+2000-U+200A *)
       || isByte 168 c3 || isByte 169 c3                (* U+2028, U+2029 *)
       || isByte 175 c3))                                       (* U+202F *)
  || (isByte 226 c1 && isByte 129 c2 && isByte 159 c3)          (* U+205F *)
  || (isByte 227 c1 && isByte 128 c2 && isByte 128 c3)          (* U+3000 *)
  || (isByte 239 c1 && isByte 187 c2 && isByte 191 c3).         (* U+FEFF *)

(** The run [cur] that a white-space character or the end of the text
    closes is a word unless it is empty: the [filter] of the source. *)
Definition pushWord (cur : string) (words : list string) : list string :=
  match cur with
  | EmptyString => words
  | _ => cur :: words
  end.

(** [s.split(/\s+/).filter(opt => opt.length > 0)]: the maximal runs of
    characters that are not white space.  [cur] is the run being read; at
    each byte the text is tried for a white-space character of one, two or
    three bytes. *)
Fixpoint splitWords (s : string) (cur : string) : list string :=
  match s with
  | EmptyString => pushWord cur []
  | String c1 s1 =>
      if isSpace c1 then pushWord cur (splitWords s1 "")
      else
        let word := splitWords s1 (cur ++ String c1 "") in
        match s1 with
        | String c2 s2 =>
            if isSpace2 c1 c2 then pushWord cur (splitWords s2 "")
            else
              match s2 with
              | String c3 s3 =>
                  if isSpace3 c1 c2 c3 then pushWord cur (splitWords s3 "")
                  else word
              | EmptyString => word
              end
        | EmptyString => word
        end
  end.

Definition parseDefaultOptions (h : Host) : list string :=
  match LS_OPTIONS h with
  | None => []
  | Some envOptions =>
      if (envOptions =? "")%string then [] else splitWords envOptions ""
  end.

(** ** listDirectory *)

(** The message of a failed [stat] on [entry] or of a failed [readdir]. *)
Definition cannotAccess (what message : string) : string :=
  "ls: cannot access '" ++ what ++ "': " ++ message.

(** The [for] loop over [entries]: [items] is the array built so far. *)
Fixpoint collect (h : Host) (directory : string) (opts : Opts)
    (entries : list string) (items : list Item) : IO (list Item) :=
  match entries with
  | [] => ret items
  | entry :: rest =>
      if negb (opt_all opts) && JS.startsWith "." entry then
        collect h directory opts rest items
      else
        let fullPath := path_join h directory entry in
        match stat h fullPath with
        | inl message =>
            console_error (cannotAccess entry message) ;;
            collect h directory opts rest items
        | inr stats =>
            collect h directory opts rest
              (items ++ [{| name := entry; stats := stats;
                            fullPath := fullPath |}])%list
        end
  end.

(** One line of the long format. *)
Definition longLine (h : Host) (opts : Opts) (useColor : bool) (item : Item)
  : string :=
  let perms := formatPermissions (mode (stats item)) in
  let size := formatSize (size (stats item)) (opt_human_readable opts) in
  let date := formatDate h (mtime (stats item)) in
  let indicator :=
    if opt_classify opts then getFileTypeIndicator (stats item) else "" in
  if useColor then
    let color := getFileColor (stats item) in
    perms ++ " " ++ JS.padStart 8 size ++ " " ++ date ++ " "
      ++ color ++ name item ++ indicator ++ colors.reset
  else
    perms ++ " " ++ JS.padStart 8 size ++ " " ++ date ++ " "
      ++ name item ++ indicator.

(** One name of the short format. *)
Definition shortName (opts : Opts) (useColor : bool) (item : Item) : string :=
  let indicator :=
    if opt_classify opts then getFileTypeIndicator (stats item) else "" in
  if useColor then
    let color := getFileColor (stats item) in
    color ++ name item ++ indicator ++ colors.reset
  else name item ++ indicator.

Definition listDirectory (h : Host) (directory : string) (opts : Opts)
  : IO unit :=
  match readdir h directory with
  | inl message =>
      console_error (cannotAccess directory message) ;;
      process_exit 1
  | inr entries =>
      items <- collect h directory opts entries [] ;;
      let sortedItems := sortItems h items opts in
      let useColor := shouldUseColor h (opt_color opts) in
      if opt_long opts then
        forOf sortedItems
          (fun item => console_log (longLine h opts useColor item))
      else
        console_log (JS.join "  " (map (shortName opts useColor) sortedItems))
  end.

(** ** main *)

Definition userSpecifiedOptions (argv : list string) : bool :=
  existsb (JS.startsWith "-") argv.

Definition onlyLongOption (argv : list string) : bool :=
  (List.length argv =? 1)%nat &&
  match argv with
  | arg :: _ => (arg =? "-l")%string
  | [] => false
  end.

(** Lines 245 to 253 of the source: what [main] does to [opts] between
    parsing and listing.  [argv] is [process.argv.slice(2)]. *)
Definition defaultBehavior (argv : list string) (opts : Opts) : Opts :=
  if negb (userSpecifiedOptions argv) || onlyLongOption argv then
    let opts := set_classify true opts in
    if (opt_color opts =? "auto")%string then set_color "always" opts
    else opts
  else opts.

Definition usage : string :=
"Usage: ls [OPTIONS] [DIRECTORY]

Options:
  -l, --long              Use long listing format
  -a, --all               Show hidden files (starting with .)
  -F, --classify          Append indicator (one of */=>@|) to entries
      --color[=WHEN]      Colorize output; WHEN can be 'always', 'auto', or 'never'
  -S, --size              Sort by file size, largest first
  -t, --time              Sort by modification time, newest first
  -r, --reverse           Reverse order while sorting
  -h, --human-readable    Show sizes in human readable format (1K, 234M, 2G)
      --help              Show this help message

Environment:
  LS_OPTIONS        Default options (e.g., 'LS_OPTIONS=-F --color=always')

Examples:
  ls           List files in current directory
  ls -l        Long format listing
  ls -a        Show all files including hidden
  ls -F        Show file type indicators
  ls -la       Long format with hidden files
  ls -lS       Long format sorted by size
  ls -lt       Long format sorted by time
  ls -ltr      Long format sorted by time, oldest first
  ls -lh       Long format with human-readable sizes
  ls /path     List files in specified directory".

Definition showHelp : IO unit := console_log usage.

(** [positionals[0] || '.']: a missing or empty first positional gives the
    current directory. *)
Definition directoryOf (positionals : list string) : string :=
  match positionals with
  | d :: _ => if (d =? "")%string then "." else d
  | [] => "."
  end.

Definition main (h : Host) (argv : list string) : IO unit :=
  let defaultOptions := parseDefaultOptions h in
  let allArgs := (defaultOptions ++ argv)%list in
  match parseArgs h allArgs with
  | inl message =>
      console_error ("Error: " ++ message) ;;
      process_exit 1
  | inr (opts, positionals) =>
      if opt_help opts then showHelp
      else
        let opts := defaultBehavior argv opts in
        let directory := directoryOf positionals in
        listDirectory h directory opts
  end.

(** * Notions used to state the properties *)

(** ** Permission strings *)

(** The three-bit value of a permission group: the octal digit of [mode] at
    bit [k]. *)
Definition octalDigit (mode k : Z) : Z := (mode / 2 ^ k) mod 8.

(** The mapping of a three-bit value to its group of three characters, as
    the specification tabulates it. *)
Definition permGroup (v : Z) : string :=
  match v with
  | 0 => "---"
  | 1 => "--x"
  | 2 => "-w-"
  | 3 => "-wx"
  | 4 => "r--"
  | 5 => "r-x"
  | 6 => "rw-"
  | 7 => "rwx"
  | _ => ""
  end.

(** The character classes of
    [^[d-][r-][w-][x-][r-][w-][x-][r-][w-][x-]$], one per position. *)
Definition permPattern : list (list ascii) :=
  let rwx := [["r"; "-"]; ["w"; "-"]; ["x"; "-"]]%char in
  ([["d"; "-"]%char] ++ rwx ++ rwx ++ rwx)%list.

(** [s] matches the anchored sequence of character classes [pat]. *)
Fixpoint matchesPattern (pat : list (list ascii)) (s : string) : bool :=
  match pat, s with
  | [], EmptyString => true
  | cls :: pat', String c s' =>
      existsb (Ascii.eqb c) cls && matchesPattern pat' s'
  | _, _ => false
  end.

(** The file-type field of a mode and two of its values, as the host's
    [Stats] methods read them: [isDirectory()] is
    [(mode & S_IFMT) === S_IFDIR]. *)
Definition S_IFMT : Z := 61440.     (* 0o170000 *)
Definition S_IFDIR : Z := 16384.    (* 0o040000 *)
Definition S_IFSOCK : Z := 49152.   (* 0o140000 *)

Definition firstChar (s : string) : option ascii := String.get 0%nat s.

(** ** Sizes *)

(** Reading a string as a decimal integer: an optional minus sign and then
    digits only. *)
Definition readDecimal (s : string) : option Z :=
  option_map Z.of_int (NilZero.int_of_string s).

(** The size an item is sorted by. *)
Definition itemSize (item : Item) : Z := size (stats item).

(** ** The default behaviour of a bare invocation *)

(** An argument is an option flag when it starts with a dash: the test of
    [userSpecifiedOptions]. *)
Definition isFlag (arg : string) : Prop := JS.startsWith "-" arg = true.

(** The two spellings of the long-format flag in the [options] table:
    the name [long] and its short form [l]. *)
Definition isLongFlag (arg : string) : Prop := arg = "--long" \/ arg = "-l".

(** The two forcings of the rule. *)
Definition forced (argv : list string) (opts : Opts) : Prop :=
  opt_classify (defaultBehavior argv opts) = true /\
  (opt_color opts = "auto" ->
   opt_color (defaultBehavior argv opts) = "always").

(** ** The collecting loop and the listing *)

(** The loop goes past [entry] without querying it. *)
Definition skipped (opts : Opts) (entry : string) : bool :=
  negb (opt_all opts) && JS.startsWith "." entry.

Definition itemOf (h : Host) (directory entry : string) (st : Stats) : Item :=
  {| name := entry; stats := st; fullPath := path_join h directory entry |}.

(** The items the loop adds for [entries], in order. *)
Fixpoint collected (h : Host) (directory : string) (opts : Opts)
    (entries : list string) : list Item :=
  match entries with
  | [] => []
  | entry :: rest =>
      if skipped opts entry then collected h directory opts rest
      else match stat h (path_join h directory entry) with
           | inl _ => collected h directory opts rest
           | inr st => itemOf h directory entry st
                         :: collected h directory opts rest
           end
  end.

(** The lines the loop writes to the error stream for [entries]. *)
Fixpoint warnings (h : Host) (directory : string) (opts : Opts)
    (entries : list string) : list string :=
  match entries with
  | [] => []
  | entry :: rest =>
      if skipped opts entry then warnings h directory opts rest
      else match stat h (path_join h directory entry) with
           | inl message =>
               cannotAccess entry message :: warnings h directory opts rest
           | inr _ => warnings h directory opts rest
           end
  end.

(** The lines [listDirectory] prints for the collected [items]. *)
Definition listing (h : Host) (opts : Opts) (items : list Item)
  : list string :=
  let sortedItems := sortItems h items opts in
  let useColor := shouldUseColor h (opt_color opts) in
  if opt_long opts then map (longLine h opts useColor) sortedItems
  else [JS.join "  " (map (shortName opts useColor) sortedItems)].

(** ** Sample data *)

Definition regularFile (m sz t : Z) : Stats :=
  {| mode := m; size := sz; mtime := t; isDirectory := false;
     isSymbolicLink := false; isSocket := false; isFIFO := false |}.

(** The directory of the scenario of the specification, [a.txt] of 500
    bytes, [b.txt] of 2000000 and [.hidden] of 10, with one entry more,
    [gone], that cannot be queried.  Names compare by character code, the
    output is not a terminal, and the parser is the one that saw no
    arguments. *)
Definition sampleHost : Host :=
  {| localeCompare := fun a b =>
       match String.compare a b with Lt => -1 | Eq => 0 | Gt => 1 end;
     toLocaleDateString := fun _ => "10/16/2025";
     toLocaleTimeString := fun _ => "05:24 PM";
     path_join := fun d e => d ++ "/" ++ e;
     readdir := fun d =>
       if (d =? ".")%string then inr ["b.txt"; ".hidden"; "gone"; "a.txt"]
       else inl "ENOENT: no such file or directory";
     stat := fun p =>
       if (p =? "./a.txt")%string then inr (regularFile 33188 500 10)
       else if (p =? "./b.txt")%string then
         inr (regularFile 33188 2000000 20)
       else if (p =? "./.hidden")%string then inr (regularFile 33188 10 30)
       else inl "ENOENT: no such file or directory";
     isTTY := false;
     LS_OPTIONS := None;
     parseArgs := fun _ => inr (defaults, []) |}.

(** A regular file [run.exe] with mode 0o100644: no type flag, no execute
    bit. *)
Definition runExe : Item :=
  {| name := "run.exe";
     stats := {| mode := 33188; size := 7; mtime := 0;
                 isDirectory := false; isSymbolicLink := false;
                 isSocket := false; isFIFO := false |};
     fullPath := "run.exe" |}.

(** The scenario of the specification sorted by size. *)
Definition sampleItems : list Item :=
  [ {| name := "a.txt"; stats := regularFile 33188 500 10;
       fullPath := "./a.txt" |};
    {| name := "b.txt"; stats := regularFile 33188 2000000 20;
       fullPath := "./b.txt" |};
    {| name := ".hidden"; stats := regularFile 33188 10 30;
       fullPath := "./.hidden" |} ].

Definition sizeOpts (r : bool) : Opts :=
  {| opt_long := false; opt_all := true; opt_classify := false;
     opt_color := "auto"; opt_size := true; opt_time := false;
     opt_reverse := r; opt_human_readable := false; opt_help := false |}.

(** ** Further notions: sorting *)

(** The time an item is sorted by. *)
Definition itemTime (item : Item) : Z := mtime (stats item).

(** Options that select the time key, and options that select the name
    key. *)
Definition timeOpts (r : bool) : Opts :=
  {| opt_long := false; opt_all := true; opt_classify := false;
     opt_color := "auto"; opt_size := false; opt_time := true;
     opt_reverse := r; opt_human_readable := false; opt_help := false |}.

Definition nameOpts (r : bool) : Opts :=
  {| opt_long := false; opt_all := true; opt_classify := false;
     opt_color := "auto"; opt_size := false; opt_time := false;
     opt_reverse := r; opt_human_readable := false; opt_help := false |}.

(** ** Further notions: classification and permission strings *)

(** The colour that goes with an indicator. *)
Definition colorOfIndicator (indicator : string) : string :=
  if (indicator =? "/")%string then colors.directory
  else if (indicator =? "@")%string then colors.symlink
  else if (indicator =? "=")%string then colors.socket
  else if (indicator =? "|")%string then colors.fifo
  else if (indicator =? "*")%string then colors.executable
  else colors.regular.

(** The character [c] occurs in [s]. *)
Fixpoint occurs (c : ascii) (s : string) : bool :=
  match s with
  | EmptyString => false
  | String c' s' => Ascii.eqb c' c || occurs c s'
  end.

(** The bits of a mode the permission string is made of: 0o40777. *)
Definition o40777 : Z := 16895.

(** ** Further notions: sizes *)

(** [n] is [size / unit] rounded to the nearest integer, a half upwards. *)
Definition rounds (unit size n : Z) : Prop :=
  2 * unit * n - unit <= 2 * size < 2 * unit * n + unit.

(** The four units of the human-readable format. *)
Definition KiB : Z := 1024.
Definition MiB : Z := 1024 * 1024.
Definition GiB : Z := 1024 * 1024 * 1024.
Definition TiB : Z := 1024 * 1024 * 1024 * 1024.

(** ** Further notions: the options of the environment *)

(** The text that follows the white-space character [s] starts with, when
    it starts with one. *)
Definition spaceAt (s : string) : option string :=
  match s with
  | String c1 s1 =>
      if isSpace c1 then Some s1
      else
        match s1 with
        | String c2 s2 =>
            if isSpace2 c1 c2 then Some s2
            else
              match s2 with
              | String c3 s3 => if isSpace3 c1 c2 c3 then Some s3 else None
              | EmptyString => None
              end
        | EmptyString => None
        end
  | EmptyString => None
  end.

Definition startsSpace (s : string) : bool :=
  match spaceAt s with
  | Some _ => true
  | None => false
  end.

(** No white-space character starts anywhere in [s]. *)
Fixpoint noSpace (s : string) : bool :=
  match s with
  | EmptyString => true
  | String _ s' => negb (startsSpace s) && noSpace s'
  end.

(** No white-space character starts at a byte of [cur] when [s] follows
    it. *)
Fixpoint cleanBefore (cur s : string) : bool :=
  match cur with
  | EmptyString => true
  | String _ cur' => negb (startsSpace (cur ++ s)) && cleanBefore cur' s
  end.

(** [s] without its white-space characters. *)
Fixpoint stripSpaces (s : string) : string :=
  match s with
  | EmptyString => EmptyString
  | String c1 s1 =>
      if isSpace c1 then stripSpaces s1
      else
        let keep := String c1 (stripSpaces s1) in
        match s1 with
        | String c2 s2 =>
            if isSpace2 c1 c2 then stripSpaces s2
            else
              match s2 with
              | String c3 s3 =>
                  if isSpace3 c1 c2 c3 then stripSpaces s3 else keep
              | EmptyString => keep
              end
        | EmptyString => keep
        end
  end.

(** A word: not empty and free of white space. *)
Definition isWord (w : string) : Prop := w <> "" /\ noSpace w = true.

(** The value of [LS_OPTIONS], empty when it is not set. *)
Definition envText (h : Host) : string :=
  match LS_OPTIONS h with
  | Some envOptions => envOptions
  | None => ""
  end.

(** The sample host with [LS_OPTIONS] set to [env]. *)
Definition sampleHostEnv (env : string) : Host :=
  {| localeCompare := localeCompare sampleHost;
     toLocaleDateString := toLocaleDateString sampleHost;
     toLocaleTimeString := toLocaleTimeString sampleHost;
     path_join := path_join sampleHost;
     readdir := readdir sampleHost;
     stat := stat sampleHost;
     isTTY := isTTY sampleHost;
     LS_OPTIONS := Some env;
     parseArgs := parseArgs sampleHost |}.

(** ** Further notions: the collecting loop *)

(** The query of [entry] succeeds. *)
Definition statOk (h : Host) (directory entry : string) : bool :=
  match stat h (path_join h directory entry) with
  | inl _ => false
  | inr _ => true
  end.

(** [entry] is queried and the query succeeds: it is listed. *)
Definition kept (h : Host) (directory : string) (opts : Opts)
    (entry : string) : bool :=
  negb (skipped opts entry) && statOk h directory entry.

(** ** Further notions: a run of main *)

(** The state of the console at the end of a run. *)
Definition consoleAfter {A : Type} (r : Outcome A * Console) : Console :=
  snd r.

(** The exit status of a run. *)
Definition statusOf {A : Type} (r : Outcome A * Console) : Z :=
  exitCode (fst r).

(** A host on which the directory cannot be read: the sample host, listing
    a directory other than [.]. *)
Definition missingDirHost : Host :=
  {| localeCompare := localeCompare sampleHost;
     toLocaleDateString := toLocaleDateString sampleHost;
     toLocaleTimeString := toLocaleTimeString sampleHost;
     path_join := path_join sampleHost;
     readdir := readdir sampleHost;
     stat := stat sampleHost;
     isTTY := isTTY sampleHost;
     LS_OPTIONS := None;
     parseArgs := fun args => inr (defaults, ["nowhere"]) |}.

(** ** Further notions: escape sequences *)

(** The escape character, with which every colour sequence starts. *)
Definition ESC : ascii := "027"%char.

(** [s] holds no escape character. *)
Definition plain (s : string) : Prop := occurs ESC s = false.

(** The comparison [sortItems] hands to [sort] under [opts]. *)
Definition sortKey (h : Host) (opts : Opts) : Item -> Item -> Z :=
  if opt_size opts then bySize
  else if opt_time opts then byTime
  else byName h.

(** * Properties *)

(** ** Bit operations on modes *)

Lemma ToInt32_small (z : Z) : 0 <= z < 2 ^ 31 -> JS.ToInt32 z = z.
Proof.
  intros Hz. unfold JS.ToInt32.
  rewrite Z.mod_small; lia.
Qed.

Lemma ToInt32_mod (z : Z) : JS.ToInt32 z mod 2 ^ 31 = z mod 2 ^ 31.
Proof.
  unfold JS.ToInt32. rewrite (Z.mod_eq (z + 2 ^ 31) (2 ^ 32)) by lia.
  replace (z + 2 ^ 31 - 2 ^ 32 * ((z + 2 ^ 31) / 2 ^ 32) - 2 ^ 31)
    with (z + (- 2 * ((z + 2 ^ 31) / 2 ^ 32)) * 2 ^ 31) by lia.
  apply Z_mod_plus_full.
Qed.

Lemma land_low (x k : Z) :
  0 <= k < 2 ^ 31 -> Z.land x k = Z.land (x mod 2 ^ 31) k.
Proof.
  intros Hk.
  assert (Ek : Z.land k (Z.ones 31) = k)
    by (rewrite Z.land_ones, Z.mod_small; lia).
  rewrite <- Ek at 1.
  rewrite (Z.land_comm k), Z.land_assoc, Z.land_ones by lia.
  reflexivity.
Qed.

Lemma land_range (x k : Z) : 0 <= k < 2 ^ 31 -> 0 <= Z.land x k < 2 ^ 31.
Proof.
  intros Hk.
  assert (E : Z.land x k = Z.land x k mod 2 ^ 31).
  { rewrite <- Z.land_ones by lia. rewrite <- Z.land_assoc.
    rewrite (Z.land_ones k) by lia. now rewrite Z.mod_small by lia. }
  rewrite E. apply Z.mod_pos_bound. lia.
Qed.

(** On a mask that fits 31 bits the wrap-around of [&] is invisible. *)
Lemma band_mask (m k : Z) : 0 <= k < 2 ^ 31 -> JS.band m k = Z.land m k.
Proof.
  intros Hk. unfold JS.band.
  rewrite (ToInt32_small k) by exact Hk.
  rewrite (land_low (JS.ToInt32 m)), (land_low m) by exact Hk.
  now rewrite ToInt32_mod.
Qed.

Lemma shr_band_mask (m k n : Z) :
  0 <= k < 2 ^ 31 -> 0 <= n < 32 ->
  JS.shr (JS.band m k) n = Z.land (Z.shiftr m n) (Z.shiftr k n).
Proof.
  intros Hk Hn. rewrite band_mask by exact Hk. unfold JS.shr.
  rewrite (ToInt32_small (Z.land m k)) by (apply land_range; exact Hk).
  rewrite (ToInt32_small n) by lia.
  replace (Z.land n 31) with n.
  - apply Z.shiftr_land.
  - change 31 with (Z.ones 5). rewrite Z.land_ones by lia.
    rewrite Z.mod_small; [reflexivity | simpl; lia].
Qed.

Lemma octalDigit_range (mode k : Z) : 0 <= octalDigit mode k < 8.
Proof. unfold octalDigit. apply Z.mod_pos_bound. lia. Qed.

Lemma owner_digit (mode : Z) :
  JS.shr (JS.band mode o700) 6 = octalDigit mode 6.
Proof.
  rewrite shr_band_mask by (unfold o700; lia).
  change (Z.shiftr o700 6) with (Z.ones 3).
  rewrite Z.land_ones, Z.shiftr_div_pow2 by lia. reflexivity.
Qed.

Lemma group_digit (mode : Z) :
  JS.shr (JS.band mode o070) 3 = octalDigit mode 3.
Proof.
  rewrite shr_band_mask by (unfold o070; lia).
  change (Z.shiftr o070 3) with (Z.ones 3).
  rewrite Z.land_ones, Z.shiftr_div_pow2 by lia. reflexivity.
Qed.

Lemma other_digit (mode : Z) : JS.band mode o007 = octalDigit mode 0.
Proof.
  rewrite band_mask by (unfold o007; lia).
  change o007 with (Z.ones 3). rewrite Z.land_ones by lia.
  unfold octalDigit. now rewrite Z.div_1_r.
Qed.

Lemma dir_bit (mode : Z) :
  JS.truthy (JS.band mode o40000) = Z.testbit mode 14.
Proof.
  rewrite band_mask by (unfold o40000; lia).
  unfold JS.truthy.
  assert (E : Z.land mode o40000 = if Z.testbit mode 14 then o40000 else 0).
  { apply Z.bits_inj'. intros n Hn. rewrite Z.land_spec.
    change o40000 with (2 ^ 14).
    destruct (Z.eq_dec n 14) as [-> | Hne].
    - rewrite Z.pow2_bits_true by lia. rewrite andb_true_r.
      destruct (Z.testbit mode 14); [now rewrite Z.pow2_bits_true by lia |
                                     now rewrite Z.bits_0].
    - rewrite Z.pow2_bits_false by lia. rewrite andb_false_r.
      destruct (Z.testbit mode 14); [now rewrite Z.pow2_bits_false by lia |
                                     now rewrite Z.bits_0]. }
  rewrite E. now destruct (Z.testbit mode 14).
Qed.

(** ** formatPermissions *)

Ltac digit_cases v :=
  let H := fresh "H" in
  assert (H : v = 0 \/ v = 1 \/ v = 2 \/ v = 3 \/
              v = 4 \/ v = 5 \/ v = 6 \/ v = 7) by lia;
  repeat (destruct H as [-> | H]); [ .. | subst v ].

Lemma index_perms (v : Z) : 0 <= v < 8 -> JS.index perms v = permGroup v.
Proof. intros Hv. digit_cases v; reflexivity. Qed.

(** [formatPermissions] in terms of the bits of [mode]. *)
Lemma formatPermissions_digits (mode : Z) :
  formatPermissions mode =
    (if Z.testbit mode 14 then "d" else "-")
      ++ permGroup (octalDigit mode 6)
      ++ permGroup (octalDigit mode 3)
      ++ permGroup (octalDigit mode 0).
Proof.
  unfold formatPermissions.
  rewrite dir_bit, owner_digit, group_digit, other_digit.
  rewrite !index_perms by apply octalDigit_range.
  unfold JS.join. cbn [concat]. cbn [append].
  now destruct (Z.testbit mode 14).
Qed.

Lemma permGroup_shape (v : Z) (rest : string) (pat : list (list ascii)) :
  0 <= v < 8 ->
  String.length (permGroup v ++ rest) = (3 + String.length rest)%nat /\
  matchesPattern ([["r"; "-"]; ["w"; "-"]; ["x"; "-"]]%char ++ pat)%list
                 (permGroup v ++ rest)
    = matchesPattern pat rest.
Proof. intros Hv. digit_cases v; split; reflexivity. Qed.

(** C7: for every mode the permission string has exactly 10 characters,
    matches [^[d-][r-][w-][x-][r-][w-][x-][r-][w-][x-]$], and is the
    directory-flag character followed by the groups of the owner, group and
    other three-bit values under the tabulated mapping. *)
Theorem formatPermissions_shape (mode : Z) :
  String.length (formatPermissions mode) = 10%nat /\
  matchesPattern permPattern (formatPermissions mode) = true /\
  formatPermissions mode =
    (if Z.testbit mode 14 then "d" else "-")
      ++ permGroup (octalDigit mode 6)
      ++ permGroup (octalDigit mode 3)
      ++ permGroup (octalDigit mode 0).
Proof.
  rewrite formatPermissions_digits.
  pose proof (octalDigit_range mode 6) as H6.
  pose proof (octalDigit_range mode 3) as H3.
  pose proof (octalDigit_range mode 0) as H0.
  destruct (permGroup_shape (octalDigit mode 0) "" [] H0) as [L0 M0].
  destruct (permGroup_shape (octalDigit mode 3)
              (permGroup (octalDigit mode 0) ++ "")
              [["r"; "-"]; ["w"; "-"]; ["x"; "-"]]%char H3) as [L3 M3].
  destruct (permGroup_shape (octalDigit mode 6)
              (permGroup (octalDigit mode 3)
                 ++ permGroup (octalDigit mode 0) ++ "")
              ([["r"; "-"]; ["w"; "-"]; ["x"; "-"]]
                 ++ [["r"; "-"]; ["w"; "-"]; ["x"; "-"]])%char%list H6)
    as [L6 M6].
  assert (E : forall s : string, s ++ "" = s)
    by (induction s; simpl; congruence).
  rewrite E in *.
  split; [| split; [| reflexivity]].
  - destruct (Z.testbit mode 14); cbn [append String.length];
      rewrite L6, L3, L0; reflexivity.
  - assert (M : matchesPattern permPattern
                  ((if Z.testbit mode 14 then "d" else "-")
                     ++ permGroup (octalDigit mode 6)
                     ++ permGroup (octalDigit mode 3)
                     ++ permGroup (octalDigit mode 0))
                = matchesPattern
                    ([["r"; "-"]; ["w"; "-"]; ["x"; "-"]]%char ++
                     [["r"; "-"]; ["w"; "-"]; ["x"; "-"]]%char ++
                     [["r"; "-"]; ["w"; "-"]; ["x"; "-"]]%char)%list
                    (permGroup (octalDigit mode 6)
                     ++ permGroup (octalDigit mode 3)
                     ++ permGroup (octalDigit mode 0)))
      by (destruct (Z.testbit mode 14); reflexivity).
    rewrite M. cbn [app] in M6, M3, M0 |- *.
    rewrite M6, M3, M0. reflexivity.
Qed.

(** C9: the first character of the permission string is [d] exactly when
    bit 0o40000 (bit 14) of the mode is set; so a mode whose file-type
    field is the socket type 0o140000 is rendered with [d] although its
    file-type field is not the directory type. *)
Theorem formatPermissions_first_char (mode : Z) :
  (firstChar (formatPermissions mode) = Some "d"%char
     <-> Z.testbit mode 14 = true) /\
  (Z.land mode S_IFMT = S_IFSOCK ->
     firstChar (formatPermissions mode) = Some "d"%char /\
     Z.land mode S_IFMT <> S_IFDIR).
Proof.
  assert (F : firstChar (formatPermissions mode) = Some "d"%char
                <-> Z.testbit mode 14 = true).
  { rewrite formatPermissions_digits.
    destruct (Z.testbit mode 14); cbn; split; congruence. }
  split; [exact F |].
  intros Hsock. split.
  - apply F.
    assert (B : Z.testbit (Z.land mode S_IFMT) 14 = true)
      by (rewrite Hsock; reflexivity).
    rewrite Z.land_spec in B. now apply andb_true_iff in B.
  - rewrite Hsock. discriminate.
Qed.

(** A socket with permissions 0o755: mode 0o140755. *)
Lemma formatPermissions_first_char_witness :
  firstChar (formatPermissions 49645) = Some "d"%char /\
  Z.land 49645 S_IFMT <> S_IFDIR.
Proof.
  apply (proj2 (formatPermissions_first_char 49645)). reflexivity.
Defined.

(** ** Classification *)

(** C8: the type checks run in the order directory, symbolic link, socket,
    fifo, executable and the first that holds decides both the indicator
    and the colour; in particular a directory gets [/] and blue whatever
    its other flags and execute bits are. *)
Theorem classification_priority (st : Stats) :
  (isDirectory st = true ->
     getFileTypeIndicator st = "/" /\ getFileColor st = colors.directory) /\
  (isDirectory st = false -> isSymbolicLink st = true ->
     getFileTypeIndicator st = "@" /\ getFileColor st = colors.symlink) /\
  (isDirectory st = false -> isSymbolicLink st = false ->
   isSocket st = true ->
     getFileTypeIndicator st = "=" /\ getFileColor st = colors.socket) /\
  (isDirectory st = false -> isSymbolicLink st = false ->
   isSocket st = false -> isFIFO st = true ->
     getFileTypeIndicator st = "|" /\ getFileColor st = colors.fifo) /\
  (isDirectory st = false -> isSymbolicLink st = false ->
   isSocket st = false -> isFIFO st = false ->
   JS.band (mode st) o111 <> 0 ->
     getFileTypeIndicator st = "*" /\ getFileColor st = colors.executable) /\
  (isDirectory st = false -> isSymbolicLink st = false ->
   isSocket st = false -> isFIFO st = false ->
   JS.band (mode st) o111 = 0 ->
     getFileTypeIndicator st = "" /\ getFileColor st = colors.regular).
Proof.
  unfold getFileTypeIndicator, getFileColor, JS.truthy.
  destruct (isDirectory st), (isSymbolicLink st), (isSocket st), (isFIFO st),
    (Z.eqb_spec (JS.band (mode st) o111) 0);
    repeat split; intros; first [reflexivity | discriminate | contradiction].
Qed.

(** An entry with every type flag set and mode 0o40777. *)
Lemma classification_priority_witness :
  let st := {| mode := 16895; size := 4096; mtime := 0;
               isDirectory := true; isSymbolicLink := true;
               isSocket := true; isFIFO := true |} in
  getFileTypeIndicator st = "/" /\ getFileColor st = colors.directory.
Proof.
  intros st. apply (proj1 (classification_priority st)). reflexivity.
Defined.

(** C1: what the code does on [run.exe] without execute bits.  The
    classification reads only [stats]: the entry gets no indicator and the
    regular colour, not [*] and green, and is printed as a plain name. *)
Theorem runExe_classification :
  getFileTypeIndicator (stats runExe) = "" /\
  getFileColor (stats runExe) = colors.regular /\
  getFileTypeIndicator (stats runExe) <> "*" /\
  getFileColor (stats runExe) <> colors.executable /\
  shortName (set_classify true defaults) false runExe = "run.exe".
Proof. repeat split; try reflexivity; discriminate. Qed.

(** ** shouldUseColor *)

(** C10: every colour option other than [always] and [never] is answered
    by the terminal test, like [auto]; the function is total, so no value
    is an error. *)
Theorem shouldUseColor_fallback (h : Host) (colorOption : string) :
  colorOption <> "always" -> colorOption <> "never" ->
  shouldUseColor h colorOption = isTTY h /\
  shouldUseColor h colorOption = shouldUseColor h "auto".
Proof.
  intros Ha Hn. unfold shouldUseColor.
  destruct (String.eqb_spec colorOption "always"); [contradiction |].
  destruct (String.eqb_spec colorOption "never"); [contradiction |].
  split; reflexivity.
Qed.

Lemma shouldUseColor_fallback_witness :
  shouldUseColor sampleHost "bogus" = isTTY sampleHost /\
  shouldUseColor sampleHost "bogus" = shouldUseColor sampleHost "auto".
Proof.
  apply (shouldUseColor_fallback sampleHost "bogus"); discriminate.
Defined.

(** ** The default behaviour of a bare invocation *)

(** C2 as stated fails on the spelling [--long]: it is a command line that
    consists of exactly the single long-format flag, and nothing is forced: with
    [--long] parsed, [classify] stays false and the colour stays [auto]. *)
Lemma long_spelled_out_not_forced :
  let argv := ["--long"] in
  let opts := {| opt_long := true; opt_all := false; opt_classify := false;
                 opt_color := "auto"; opt_size := false; opt_time := false;
                 opt_reverse := false; opt_human_readable := false;
                 opt_help := false |} in
  (exists arg, argv = [arg] /\ isLongFlag arg) /\
  defaultBehavior argv opts = opts /\
  ~ forced argv opts.
Proof.
  cbv zeta. split; [| split].
  - exists "--long". split; [reflexivity | left; reflexivity].
  - reflexivity.
  - intros [Hc _]. discriminate Hc.
Qed.

Lemma set_classify_color (b : bool) (o : Opts) :
  opt_color (set_classify b o) = opt_color o.
Proof. reflexivity. Qed.

(** C2, as the code has it: when no argument of the command line starts
    with a dash, or the command line is exactly the one argument [-l],
    [classify] becomes true, a colour option [auto] becomes [always], any
    other colour option is kept and so is every other option; when the
    command line holds a flag other than [-l] (the spelling [--long]
    included), the options are left exactly as parsed. *)
Theorem defaultBehavior_rule (argv : list string) (opts : Opts) :
  (userSpecifiedOptions argv = false \/ argv = ["-l"] ->
     forced argv opts /\
     (opt_color opts <> "auto" ->
      opt_color (defaultBehavior argv opts) = opt_color opts) /\
     set_classify (opt_classify opts)
       (set_color (opt_color opts) (defaultBehavior argv opts)) = opts) /\
  ((exists arg, In arg argv /\ isFlag arg /\ arg <> "-l") ->
     defaultBehavior argv opts = opts).
Proof.
  split.
  - intros Hargv.
    assert (G : negb (userSpecifiedOptions argv) || onlyLongOption argv = true).
    { destruct Hargv as [-> | ->]; reflexivity. }
    unfold forced, defaultBehavior. rewrite G. cbv zeta.
    rewrite set_classify_color.
    destruct (String.eqb_spec (opt_color opts) "auto") as [Hc | Hc].
    + repeat split; try reflexivity.
      * intros Hn. contradiction.
      * destruct opts; reflexivity.
    + repeat split; try reflexivity.
      * intros Ha. contradiction.
      * destruct opts; reflexivity.
  - intros (arg & Hin & Hflag & Hne).
    unfold defaultBehavior.
    assert (U : userSpecifiedOptions argv = true).
    { unfold userSpecifiedOptions. apply existsb_exists.
      exists arg. split; assumption. }
    assert (L : onlyLongOption argv = false).
    { unfold onlyLongOption.
      destruct argv as [| a [| b rest]]; try reflexivity.
      destruct Hin as [<- | []]. cbn.
      destruct (String.eqb_spec a "-l"); [contradiction | reflexivity]. }
    rewrite U, L. reflexivity.
Qed.

Lemma defaultBehavior_rule_witness :
  forced ["-l"] defaults /\ defaultBehavior ["-a"; "dir"] defaults = defaults.
Proof.
  split.
  - apply (proj1 (defaultBehavior_rule ["-l"] defaults)).
    right. reflexivity.
  - apply (proj2 (defaultBehavior_rule ["-a"; "dir"] defaults)).
    exists "-a". repeat split; [left; reflexivity | discriminate].
Defined.

(** ** formatSize *)

Lemma to_int_proper (z : Z) :
  Z.to_int z <> Decimal.Pos Decimal.Nil /\
  Z.to_int z <> Decimal.Neg Decimal.Nil.
Proof.
  destruct z as [| p | p]; cbn; split; try discriminate;
    intros E; injection E; apply Unsigned.to_uint_nonnil.
Qed.

(** The digits of an integer read back as the integer. *)
Lemma readDecimal_digitsOf (z : Z) : readDecimal (JS.digitsOf z) = Some z.
Proof.
  unfold readDecimal, JS.digitsOf.
  destruct (to_int_proper z) as [Hp Hn].
  rewrite NilZero.isi by assumption.
  cbn [option_map]. now rewrite DecimalZ.of_to.
Qed.

(** A safe integer, below 2^53 in magnitude, is written with its own
    digits. *)
Lemma toString_safe (z : Z) :
  Z.abs z < 2 ^ 53 -> JS.toString z = JS.digitsOf z.
Proof.
  intros Hz. unfold JS.toString, JS.toStringPositive.
  destruct z as [| p | p].
  - reflexivity.
  - cbn [Z.eqb Z.ltb Z.compare].
    destruct (Z.ltb_spec (Z.pos p) (2 ^ 53)); [reflexivity | lia].
  - cbn [Z.eqb Z.ltb Z.compare Z.opp].
    destruct (Z.ltb_spec (Z.pos p) (2 ^ 53)); [reflexivity | lia].
Qed.

(** C4 as stated fails above 2^53: the size 2^56, a Number that [stat] can
    return, is written as 72057594037927940, which is not its decimal
    integer string 72057594037927936 and does not read back as the size. *)
Lemma formatSize_inexact_above_safe :
  let size := 2 ^ 56 in
  JS.toNumber size = size /\
  formatSize size false = "72057594037927940" /\
  JS.digitsOf size = "72057594037927936" /\
  readDecimal (formatSize size false) <> Some size.
Proof.
  cbv zeta. split; [reflexivity | split; [vm_compute; reflexivity |]].
  split; [vm_compute; reflexivity |].
  vm_compute. discriminate.
Qed.

(** C4, as the code has it: the four sizes of the specification in
    human-readable mode, and in the other mode, for every size that is a
    safe integer (below 2^53 in magnitude), the decimal integer string of
    the byte count itself. *)
Theorem formatSize_examples :
  formatSize 0 true = "0" /\
  formatSize 1023 true = "1023" /\
  formatSize 1024 true = "1K" /\
  formatSize 1048576 true = "1M" /\
  forall size : Z,
    Z.abs size < 2 ^ 53 ->
    formatSize size false = JS.toString size /\
    formatSize size false = JS.digitsOf size /\
    readDecimal (formatSize size false) = Some size.
Proof.
  split; [reflexivity | split; [reflexivity | split; [reflexivity |]]].
  split; [reflexivity |].
  intros size Hsize. unfold formatSize. cbn [negb].
  rewrite toString_safe by exact Hsize.
  split; [reflexivity | split; [reflexivity |]].
  apply readDecimal_digitsOf.
Qed.

(** The size of the executable of the project's own listing. *)
Lemma formatSize_examples_witness :
  formatSize 119631960 false = "119631960" /\
  readDecimal (formatSize 119631960 false) = Some 119631960.
Proof.
  destruct formatSize_examples as (_ & _ & _ & _ & H).
  destruct (H 119631960) as (_ & Hd & Hr); [vm_compute; reflexivity |].
  split; [rewrite Hd; reflexivity | exact Hr].
Defined.

(** ** Sorting *)

Section ArraySortFacts.

Context {A : Type}.
Variable compareFn : A -> A -> Z.

Lemma insert_perm (x : A) (l : list A) :
  Permutation (x :: l) (insert compareFn x l).
Proof.
  induction l as [| y l IH]; cbn.
  - apply Permutation_refl.
  - destruct (0 <? compareFn x y).
    + eapply perm_trans; [apply perm_swap |]. now apply perm_skip.
    + apply Permutation_refl.
Qed.

Lemma Array_sort_perm (l : list A) : Permutation l (Array_sort compareFn l).
Proof.
  induction l as [| x l IH]; cbn.
  - apply perm_nil.
  - eapply perm_trans; [apply perm_skip, IH | apply insert_perm].
Qed.

(** A consistent comparison function: what the language standard asks of
    the argument of [sort] for the result to be sorted. *)
Hypothesis compareFn_flip :
  forall a b, 0 < compareFn a b -> compareFn b a <= 0.
Hypothesis compareFn_trans :
  forall a b c, compareFn a b <= 0 -> compareFn b c <= 0 ->
                compareFn a c <= 0.

Lemma insert_sorted (x : A) (l : list A) :
  StronglySorted (mayPrecede compareFn) l ->
  StronglySorted (mayPrecede compareFn) (insert compareFn x l).
Proof.
  induction 1 as [| y l Hl IH Hy]; cbn.
  - constructor; constructor.
  - destruct (Z.ltb_spec 0 (compareFn x y)) as [Hgt | Hle].
    + constructor; [exact IH |].
      apply (Permutation_Forall (insert_perm x l)).
      constructor; [apply compareFn_flip; exact Hgt | exact Hy].
    + constructor; [constructor; assumption |].
      constructor; [exact Hle |].
      eapply Forall_impl; [| exact Hy].
      intros z Hz. eapply compareFn_trans; eassumption.
Qed.

Lemma Array_sort_sorted (l : list A) :
  StronglySorted (mayPrecede compareFn) (Array_sort compareFn l).
Proof.
  induction l as [| x l IH]; cbn.
  - constructor.
  - apply insert_sorted, IH.
Qed.

End ArraySortFacts.

Section SortedLists.

Context {A B : Type}.

Lemma StronglySorted_map (R : A -> A -> Prop) (R' : B -> B -> Prop)
    (f : A -> B) (l : list A) :
  (forall a b, R a b -> R' (f a) (f b)) ->
  StronglySorted R l -> StronglySorted R' (map f l).
Proof.
  intros HR. induction 1 as [| a l Hl IH Ha]; cbn; constructor.
  - exact IH.
  - apply Forall_map. eapply Forall_impl; [| exact Ha].
    intros b Hb. now apply HR.
Qed.

Lemma StronglySorted_snoc (R : A -> A -> Prop) (l : list A) (x : A) :
  StronglySorted R l -> Forall (fun y => R y x) l ->
  StronglySorted R (l ++ [x]).
Proof.
  induction 1 as [| a l Hl IH Ha]; cbn; intros Hx.
  - constructor; constructor.
  - inversion Hx as [| ? ? Hax Hlx]; subst.
    constructor; [now apply IH |].
    apply Forall_app.
    split; [exact Ha | constructor; [exact Hax | constructor]].
Qed.

Lemma StronglySorted_rev (R : A -> A -> Prop) (l : list A) :
  StronglySorted R l -> StronglySorted (fun a b => R b a) (rev l).
Proof.
  induction 1 as [| a l Hl IH Ha]; cbn.
  - constructor.
  - apply StronglySorted_snoc; [exact IH |].
    apply Forall_rev. exact Ha.
Qed.

End SortedLists.

(** C5: with the size key the result lists every item once, and its sizes
    never increase along the list when [reverse] is off and never decrease
    when it is on. *)
Theorem sortItems_by_size (h : Host) (items : list Item) (opts : Opts) :
  opt_size opts = true ->
  Permutation items (sortItems h items opts) /\
  (opt_reverse opts = false ->
     StronglySorted Z.ge (map itemSize (sortItems h items opts))) /\
  (opt_reverse opts = true ->
     StronglySorted Z.le (map itemSize (sortItems h items opts))).
Proof.
  intros Hsize. unfold sortItems. rewrite Hsize. cbv zeta.
  assert (S : StronglySorted (mayPrecede bySize) (Array_sort bySize items)).
  { apply Array_sort_sorted; unfold bySize; intros; lia. }
  pose proof (Array_sort_perm bySize items) as P.
  split; [| split].
  - destruct (opt_reverse opts); [| exact P].
    eapply perm_trans; [exact P | apply Permutation_rev].
  - intros ->. eapply StronglySorted_map; [| exact S].
    unfold mayPrecede, bySize, itemSize. intros a b Hab. lia.
  - intros ->. eapply StronglySorted_map; [| apply StronglySorted_rev, S].
    unfold mayPrecede, bySize, itemSize. cbn beta. intros a b Hab. lia.
Qed.

(** ** The collecting loop *)

Section Collect.

Variable h : Host.
Variable directory : string.
Variable opts : Opts.

(** The loop always runs to its end: it returns the items built so far
    followed by the collected ones, and only adds to the error stream. *)
Lemma collect_spec (entries : list string) :
  forall (items : list Item) (c : Console),
    collect h directory opts entries items c =
      (Done (items ++ collected h directory opts entries)%list,
       {| stdout := stdout c;
          stderr := (stderr c ++ warnings h directory opts entries)%list |}).
Proof.
  induction entries as [| entry rest IH]; intros items c;
    cbn [collect collected warnings].
  - unfold ret. rewrite !app_nil_r. now destruct c.
  - fold (skipped opts entry). destruct (skipped opts entry); [apply IH |].
    destruct (stat h (path_join h directory entry)) as [message | st].
    + unfold bind, console_error. rewrite IH. cbn [stdout stderr].
      now rewrite <- app_assoc.
    + rewrite IH. fold (itemOf h directory entry st).
      now rewrite <- app_assoc.
Qed.



Lemma In_collected (it : Item) (entries : list string) :
  In it (collected h directory opts entries) <->
  exists entry st,
    In entry entries /\ skipped opts entry = false /\
    stat h (path_join h directory entry) = inr st /\
    it = itemOf h directory entry st.
Proof.
  induction entries as [| e rest IH]; cbn [collected In].
  - split; [intros [] | intros (? & ? & [] & _)].
  - destruct (skipped opts e) eqn:Hs.
    + rewrite IH. split.
      * intros (entry & st & Hin & ?). exists entry, st. tauto.
      * intros (entry & st & [<- | Hin] & Hk & ?); [congruence |].
        exists entry, st. tauto.
    + destruct (stat h (path_join h directory e)) as [message | st0] eqn:Hst.
      * rewrite IH. split.
        -- intros (entry & st & Hin & ?). exists entry, st. tauto.
        -- intros (entry & st & [<- | Hin] & Hk & Hq & ?); [congruence |].
           exists entry, st. tauto.
      * cbn [In]. rewrite IH. split.
        -- intros [<- | (entry & st & Hin & ?)].
           ++ exists e, st0. tauto.
           ++ exists entry, st. tauto.
        -- intros (entry & st & [<- | Hin] & Hk & Hq & ->).
           ++ left. congruence.
           ++ right. exists entry, st. tauto.
Qed.


End Collect.

(** ** listDirectory as a whole *)

Lemma forOf_log {A : Type} (f : A -> string) (xs : list A) :
  forall c : Console,
    forOf xs (fun x => console_log (f x)) c =
      (Done tt, {| stdout := (stdout c ++ map f xs)%list;
                   stderr := stderr c |}).
Proof.
  induction xs as [| x xs IH]; intros c; cbn [forOf map].
  - unfold ret. rewrite app_nil_r. now destruct c.
  - unfold bind, console_log at 1. rewrite IH. cbn [stdout stderr].
    now rewrite <- app_assoc.
Qed.

(** When the directory can be read, [listDirectory] returns without ending
    the process: it prints the listing of the collected items and its only
    lines on the error stream are the warnings of the loop. *)
Lemma listDirectory_readable (h : Host) (directory : string) (opts : Opts)
    (entries : list string) (c : Console) :
  readdir h directory = inr entries ->
  listDirectory h directory opts c =
    (Done tt,
     {| stdout :=
          (stdout c ++ listing h opts (collected h directory opts entries))%list;
        stderr := (stderr c ++ warnings h directory opts entries)%list |}).
Proof.
  intros Hrd. unfold listDirectory. rewrite Hrd.
  unfold bind at 1. rewrite collect_spec. cbn [app]. unfold listing.
  destruct (opt_long opts).
  - rewrite forOf_log. reflexivity.
  - reflexivity.
Qed.

(** When the directory cannot be read the process ends with status 1 and
    nothing on the output stream. *)
Lemma listDirectory_unreadable (h : Host) (directory : string) (opts : Opts)
    (message : string) (c : Console) :
  readdir h directory = inl message ->
  listDirectory h directory opts c =
    (Exited 1,
     {| stdout := stdout c;
        stderr := (stderr c ++ [cannotAccess directory message])%list |}).
Proof. intros Hrd. unfold listDirectory. now rewrite Hrd. Qed.

(** C6: the loop returns, and of the members of the directory those whose
    name starts with a dot are left out unless [all] is set, while every
    other member, and with [all] every member, whose query succeeds is in
    the result. *)
Theorem hidden_filter (h : Host) (directory : string) (opts : Opts)
    (entries : list string) (c : Console) :
  exists (items : list Item) (c' : Console),
    collect h directory opts entries [] c = (Done items, c') /\
    (forall entry, In entry entries ->
       JS.startsWith "." entry = true -> opt_all opts = false ->
       forall it, In it items -> name it <> entry) /\
    (opt_all opts = false ->
       forall it, In it items -> JS.startsWith "." (name it) = false) /\
    (forall entry st, In entry entries ->
       JS.startsWith "." entry = false \/ opt_all opts = true ->
       stat h (path_join h directory entry) = inr st ->
       In {| name := entry; stats := st;
             fullPath := path_join h directory entry |} items).
Proof.
  eexists. eexists. split; [apply collect_spec |]. cbn [app].
  assert (NoDot : opt_all opts = false ->
            forall it, In it (collected h directory opts entries) ->
                       JS.startsWith "." (name it) = false).
  { intros Hall it Hit. apply In_collected in Hit.
    destruct Hit as (e & st & _ & Hk & _ & ->). cbn [name itemOf].
    unfold skipped in Hk. rewrite Hall in Hk. exact Hk. }
  split; [| split].
  - intros entry _ Hdot Hall it Hit Hname.
    specialize (NoDot Hall it Hit). congruence.
  - exact NoDot.
  - intros entry st Hin Hkeep Hst. apply In_collected.
    exists entry, st. repeat split; try assumption.
    unfold skipped. destruct Hkeep as [-> | ->];
      [apply andb_false_r | reflexivity].
Qed.

Lemma hidden_filter_witness :
  exists (items : list Item) (c' : Console),
    collect sampleHost "." defaults ["b.txt"; ".hidden"; "gone"; "a.txt"] []
      console0 = (Done items, c') /\
    (forall it, In it items -> name it <> ".hidden") /\
    In {| name := "a.txt"; stats := regularFile 33188 500 10;
          fullPath := "./a.txt" |} items.
Proof.
  destruct (hidden_filter sampleHost "." defaults
              ["b.txt"; ".hidden"; "gone"; "a.txt"] console0)
    as (items & c' & Hrun & Hhid & _ & Hkeep).
  exists items, c'. split; [exact Hrun | split].
  - apply (Hhid ".hidden"); [cbn; tauto | reflexivity | reflexivity].
  - apply (Hkeep "a.txt" (regularFile 33188 500 10));
      [cbn; tauto | left; reflexivity | reflexivity].
Defined.




Lemma sortItems_by_size_witness :
  map name (sortItems sampleHost sampleItems (sizeOpts false))
    = ["b.txt"; "a.txt"; ".hidden"] /\
  StronglySorted Z.ge
    (map itemSize (sortItems sampleHost sampleItems (sizeOpts false))) /\
  map name (sortItems sampleHost sampleItems (sizeOpts true))
    = [".hidden"; "a.txt"; "b.txt"] /\
  StronglySorted Z.le
    (map itemSize (sortItems sampleHost sampleItems (sizeOpts true))).
Proof.
  split; [reflexivity | split; [| split; [reflexivity |]]].
  - apply (proj1 (proj2 (sortItems_by_size sampleHost sampleItems
                           (sizeOpts false) eq_refl))).
    reflexivity.
  - apply (proj2 (proj2 (sortItems_by_size sampleHost sampleItems
                           (sizeOpts true) eq_refl))).
    reflexivity.
Defined.

(** * Further properties *)

(** ** sortItems on its other keys *)

(** X1: whatever the options and the comparison of the host, [sortItems]
    returns the items it was given, each as often as it was given: nothing
    is dropped, nothing is repeated, and the list keeps its length. *)
Theorem sortItems_permutation (h : Host) (items : list Item) (opts : Opts) :
  Permutation items (sortItems h items opts) /\
  List.length (sortItems h items opts) = List.length items.
Proof.
  assert (P : Permutation items (sortItems h items opts)).
  { unfold sortItems.
    assert (Q : forall l : list Item,
              Permutation items l ->
              Permutation items (if opt_reverse opts then rev l else l)).
    { intros l Hl. destruct (opt_reverse opts); [| exact Hl].
      eapply perm_trans; [exact Hl | apply Permutation_rev]. }
    cbv zeta. apply Q.
    destruct (opt_size opts); [| destruct (opt_time opts)];
      apply Array_sort_perm. }
  split; [exact P |]. symmetry. apply Permutation_length, P.
Qed.

(** X2: with the time key, and the size key off, the modification times
    never increase along the result (newest first) when [reverse] is off
    and never decrease (oldest first) when it is on. *)
Theorem sortItems_by_time (h : Host) (items : list Item) (opts : Opts) :
  opt_size opts = false -> opt_time opts = true ->
  (opt_reverse opts = false ->
     StronglySorted Z.ge (map itemTime (sortItems h items opts))) /\
  (opt_reverse opts = true ->
     StronglySorted Z.le (map itemTime (sortItems h items opts))).
Proof.
  intros Hsize Htime. unfold sortItems. rewrite Hsize, Htime. cbv zeta.
  assert (S : StronglySorted (mayPrecede byTime) (Array_sort byTime items)).
  { apply Array_sort_sorted; unfold byTime; intros; lia. }
  split.
  - intros ->. eapply StronglySorted_map; [| exact S].
    unfold mayPrecede, byTime, itemTime. intros a b Hab. lia.
  - intros ->. eapply StronglySorted_map; [| apply StronglySorted_rev, S].
    unfold mayPrecede, byTime, itemTime. cbn beta. intros a b Hab. lia.
Qed.

Lemma sortItems_by_time_witness :
  map name (sortItems sampleHost sampleItems (timeOpts false))
    = [".hidden"; "b.txt"; "a.txt"] /\
  StronglySorted Z.ge
    (map itemTime (sortItems sampleHost sampleItems (timeOpts false))) /\
  StronglySorted Z.le
    (map itemTime (sortItems sampleHost sampleItems (timeOpts true))).
Proof.
  split; [reflexivity | split].
  - apply (proj1 (sortItems_by_time sampleHost sampleItems (timeOpts false)
                    eq_refl eq_refl)).
    reflexivity.
  - apply (proj2 (sortItems_by_time sampleHost sampleItems (timeOpts true)
                    eq_refl eq_refl)).
    reflexivity.
Defined.

(** X3: with neither the size nor the time key, and a host whose
    [localeCompare] is a consistent comparison, each name of the result may
    stand before every later one when [reverse] is off, and after every
    later one when it is on. *)
Theorem sortItems_by_name (h : Host) (items : list Item) (opts : Opts) :
  (forall a b, 0 < localeCompare h a b -> localeCompare h b a <= 0) ->
  (forall a b c, localeCompare h a b <= 0 -> localeCompare h b c <= 0 ->
                 localeCompare h a c <= 0) ->
  opt_size opts = false -> opt_time opts = false ->
  (opt_reverse opts = false ->
     StronglySorted (fun a b => localeCompare h a b <= 0)
       (map name (sortItems h items opts))) /\
  (opt_reverse opts = true ->
     StronglySorted (fun a b => localeCompare h b a <= 0)
       (map name (sortItems h items opts))).
Proof.
  intros Hflip Htrans Hsize Htime.
  unfold sortItems. rewrite Hsize, Htime. cbv zeta.
  assert (S : StronglySorted (mayPrecede (byName h))
                (Array_sort (byName h) items)).
  { apply Array_sort_sorted; unfold byName; intros.
    - now apply Hflip.
    - eapply Htrans; eassumption. }
  split.
  - intros ->. eapply StronglySorted_map; [| exact S].
    unfold mayPrecede, byName. intros a b Hab. exact Hab.
  - intros ->. eapply StronglySorted_map; [| apply StronglySorted_rev, S].
    unfold mayPrecede, byName. cbn beta. intros a b Hab. exact Hab.
Qed.

(** The comparison of the sample host is consistent. *)
Lemma string_compare_trans (a b c : string) :
  String.compare a b <> Gt -> String.compare b c <> Gt ->
  String.compare a c <> Gt.
Proof.
  revert b c. induction a as [| x a IH]; intros [| y b] [| z c]; cbn;
    try congruence.
  unfold Ascii.compare.
  destruct (N.compare_spec (N_of_ascii x) (N_of_ascii y)) as [Exy | Lxy | Gxy],
           (N.compare_spec (N_of_ascii y) (N_of_ascii z)) as [Eyz | Lyz | Gyz],
           (N.compare_spec (N_of_ascii x) (N_of_ascii z)) as [Exz | Lxz | Gxz];
    try congruence; try lia.
  apply IH.
Qed.

Lemma sampleHost_flip (a b : string) :
  0 < localeCompare sampleHost a b -> localeCompare sampleHost b a <= 0.
Proof.
  cbn. rewrite (String.compare_antisym a b).
  destruct (String.compare b a); cbn; lia.
Qed.

Lemma sampleHost_trans (a b c : string) :
  localeCompare sampleHost a b <= 0 -> localeCompare sampleHost b c <= 0 ->
  localeCompare sampleHost a c <= 0.
Proof.
  cbn. intros Hab Hbc.
  pose proof (string_compare_trans a b c) as T.
  destruct (String.compare a b); try lia;
    destruct (String.compare b c); try lia;
    destruct (String.compare a c); try lia;
    exfalso; apply T; congruence.
Qed.

Lemma sortItems_by_name_witness :
  map name (sortItems sampleHost sampleItems (nameOpts false))
    = [".hidden"; "a.txt"; "b.txt"] /\
  StronglySorted (fun a b => localeCompare sampleHost a b <= 0)
    (map name (sortItems sampleHost sampleItems (nameOpts false))) /\
  StronglySorted (fun a b => localeCompare sampleHost b a <= 0)
    (map name (sortItems sampleHost sampleItems (nameOpts true))).
Proof.
  split; [reflexivity | split].
  - apply (proj1 (sortItems_by_name sampleHost sampleItems (nameOpts false)
                    sampleHost_flip sampleHost_trans eq_refl eq_refl)).
    reflexivity.
  - apply (proj2 (sortItems_by_name sampleHost sampleItems (nameOpts true)
                    sampleHost_flip sampleHost_trans eq_refl eq_refl)).
    reflexivity.
Defined.

(** ** Classification and permission strings together *)

(** X4: the two classifiers never disagree: the colour of an entry is the
    colour that goes with its indicator, and the indicator is one of the
    five characters or empty. *)
Theorem color_follows_indicator (st : Stats) :
  getFileColor st = colorOfIndicator (getFileTypeIndicator st) /\
  In (getFileTypeIndicator st) ["/"; "@"; "="; "|"; "*"; ""].
Proof.
  unfold getFileColor, getFileTypeIndicator.
  destruct (isDirectory st), (isSymbolicLink st), (isSocket st), (isFIFO st),
    (JS.truthy (JS.band (mode st) o111));
    split; first [reflexivity | cbn; tauto].
Qed.

Lemma land_mod_pow2 (x k n : Z) :
  0 <= n -> 0 <= k < 2 ^ n -> Z.land x k = Z.land (x mod 2 ^ n) k.
Proof.
  intros Hn Hk.
  assert (Ek : Z.land k (Z.ones n) = k)
    by (rewrite Z.land_ones, Z.mod_small; lia).
  rewrite <- Ek at 1.
  rewrite (Z.land_comm k), Z.land_assoc, Z.land_ones by lia.
  reflexivity.
Qed.

(** The low nine bits of a mode are its three octal digits. *)
Lemma low_nine_bits (mode : Z) :
  mode mod 2 ^ 9 =
    64 * octalDigit mode 6 + 8 * octalDigit mode 3 + octalDigit mode 0.
Proof.
  unfold octalDigit.
  change (2 ^ 9) with 512. change (2 ^ 6) with 64.
  change (2 ^ 3) with 8. change (2 ^ 0) with 1.
  rewrite Z.div_1_r.
  pose proof (Z.div_mod mode 512). pose proof (Z.mod_pos_bound mode 512).
  pose proof (Z.div_mod mode 64). pose proof (Z.mod_pos_bound mode 64).
  pose proof (Z.div_mod mode 8). pose proof (Z.mod_pos_bound mode 8).
  pose proof (Z.div_mod (mode / 64) 8).
  pose proof (Z.mod_pos_bound (mode / 64) 8).
  pose proof (Z.div_mod (mode / 8) 8).
  pose proof (Z.mod_pos_bound (mode / 8) 8).
  lia.
Qed.

(** X5: for an entry that is no directory, link, socket or fifo, the
    indicator is the star exactly when an [x] shows in its permission
    string. *)
Theorem star_iff_x (st : Stats) :
  isDirectory st = false -> isSymbolicLink st = false ->
  isSocket st = false -> isFIFO st = false ->
  (getFileTypeIndicator st = "*" <->
   occurs "x" (formatPermissions (mode st)) = true).
Proof.
  intros Hd Hl Hs Hf. unfold getFileTypeIndicator.
  rewrite Hd, Hl, Hs, Hf.
  rewrite formatPermissions_digits.
  rewrite band_mask by (unfold o111; lia).
  rewrite (land_mod_pow2 (mode st) o111 9) by (unfold o111; lia).
  rewrite low_nine_bits.
  pose proof (octalDigit_range (mode st) 6) as H6.
  pose proof (octalDigit_range (mode st) 3) as H3.
  pose proof (octalDigit_range (mode st) 0) as H0.
  generalize dependent (octalDigit (mode st) 6). intros a Ha.
  generalize dependent (octalDigit (mode st) 3). intros b Hb.
  generalize dependent (octalDigit (mode st) 0). intros c Hc.
  assert (X : forall v, 0 <= v < 8 ->
              forall rest, occurs "x" (permGroup v ++ rest)
                           = Z.odd v || occurs "x" rest).
  { intros v Hv rest. digit_cases v; reflexivity. }
  assert (F : forall rest,
              occurs "x" ((if Z.testbit (mode st) 14 then "d" else "-") ++ rest)
              = occurs "x" rest).
  { intros rest. destruct (Z.testbit (mode st) 14); reflexivity. }
  assert (X0 : forall v, 0 <= v < 8 -> occurs "x" (permGroup v) = Z.odd v).
  { intros v Hv. digit_cases v; reflexivity. }
  rewrite F, !X, X0 by assumption.
  assert (B : JS.truthy (Z.land (64 * a + 8 * b + c) o111)
              = Z.odd a || Z.odd b || Z.odd c).
  { digit_cases a; digit_cases b; digit_cases c; reflexivity. }
  rewrite B, orb_assoc.
  destruct (Z.odd a || Z.odd b || Z.odd c); split; congruence.
Qed.

Lemma star_iff_x_witness :
  getFileTypeIndicator (regularFile 33261 0 0) = "*" <->
  occurs "x" (formatPermissions (mode (regularFile 33261 0 0))) = true.
Proof.
  apply (star_iff_x (regularFile 33261 0 0)); reflexivity.
Defined.

Lemma permGroup_inj_app (v w : Z) (s t : string) :
  0 <= v < 8 -> 0 <= w < 8 ->
  permGroup v ++ s = permGroup w ++ t -> v = w /\ s = t.
Proof.
  intros Hv Hw. digit_cases v; digit_cases w; cbn; intros E;
    split; congruence.
Qed.

Lemma permGroup_inj (v w : Z) :
  0 <= v < 8 -> 0 <= w < 8 -> permGroup v = permGroup w -> v = w.
Proof.
  intros Hv Hw. digit_cases v; digit_cases w; cbn; intros E; congruence.
Qed.

Lemma land_bit14 (m : Z) :
  Z.land m 16384 = if Z.testbit m 14 then 16384 else 0.
Proof.
  apply Z.bits_inj'. intros n Hn. rewrite Z.land_spec.
  change 16384 with (2 ^ 14).
  destruct (Z.eq_dec n 14) as [-> | Hne].
  - rewrite Z.pow2_bits_true by lia. rewrite andb_true_r.
    destruct (Z.testbit m 14);
      [now rewrite Z.pow2_bits_true by lia | now rewrite Z.bits_0].
  - rewrite Z.pow2_bits_false by lia. rewrite andb_false_r.
    destruct (Z.testbit m 14);
      [now rewrite Z.pow2_bits_false by lia | now rewrite Z.bits_0].
Qed.

(** The bits 0o40777 of a mode are its bit 14 and its low nine bits. *)
Lemma land_o40777 (m : Z) :
  Z.land m o40777 =
    Z.lor (if Z.testbit m 14 then 16384 else 0) (m mod 2 ^ 9).
Proof.
  change o40777 with (Z.lor 16384 (Z.ones 9)).
  rewrite Z.land_lor_distr_r, land_bit14, Z.land_ones by lia.
  reflexivity.
Qed.

Lemma o40777_parts (m : Z) :
  Z.testbit (Z.land m o40777) 14 = Z.testbit m 14 /\
  Z.land m o40777 mod 2 ^ 9 = m mod 2 ^ 9.
Proof.
  split.
  - rewrite Z.land_spec. change (Z.testbit o40777 14) with true.
    apply andb_true_r.
  - rewrite <- !Z.land_ones by lia. rewrite <- Z.land_assoc.
    reflexivity.
Qed.

Lemma digits_of_low (m1 m2 : Z) :
  m1 mod 2 ^ 9 = m2 mod 2 ^ 9 <->
  octalDigit m1 6 = octalDigit m2 6 /\
  octalDigit m1 3 = octalDigit m2 3 /\
  octalDigit m1 0 = octalDigit m2 0.
Proof.
  rewrite !low_nine_bits.
  pose proof (octalDigit_range m1 6). pose proof (octalDigit_range m1 3).
  pose proof (octalDigit_range m1 0). pose proof (octalDigit_range m2 6).
  pose proof (octalDigit_range m2 3). pose proof (octalDigit_range m2 0).
  lia.
Qed.

(** X6: two modes are written as the same permission string exactly when
    they agree on the bits 0o40777: the string shows bit 0o40000 and the
    nine permission bits and nothing else of the mode. *)
Theorem formatPermissions_same_iff (m1 m2 : Z) :
  formatPermissions m1 = formatPermissions m2 <->
  Z.land m1 o40777 = Z.land m2 o40777.
Proof.
  rewrite !formatPermissions_digits, !land_o40777.
  pose proof (octalDigit_range m1 6). pose proof (octalDigit_range m1 3).
  pose proof (octalDigit_range m1 0). pose proof (octalDigit_range m2 6).
  pose proof (octalDigit_range m2 3). pose proof (octalDigit_range m2 0).
  split.
  - intros E.
    assert (B : Z.testbit m1 14 = Z.testbit m2 14 /\
                permGroup (octalDigit m1 6) ++ permGroup (octalDigit m1 3)
                  ++ permGroup (octalDigit m1 0)
                = permGroup (octalDigit m2 6) ++ permGroup (octalDigit m2 3)
                  ++ permGroup (octalDigit m2 0)).
    { destruct (Z.testbit m1 14), (Z.testbit m2 14); cbn in E;
        split; congruence. }
    destruct B as [B14 E6]. rewrite B14.
    apply permGroup_inj_app in E6; [| assumption | assumption].
    destruct E6 as [D6 E3].
    apply permGroup_inj_app in E3; [| assumption | assumption].
    destruct E3 as [D3 E0].
    apply permGroup_inj in E0; [| assumption | assumption].
    f_equal. apply digits_of_low. auto.
  - intros E.
    assert (B14 : Z.testbit m1 14 = Z.testbit m2 14).
    { rewrite <- (proj1 (o40777_parts m1)), <- (proj1 (o40777_parts m2)).
      now rewrite !land_o40777, E. }
    assert (L : m1 mod 2 ^ 9 = m2 mod 2 ^ 9).
    { rewrite <- (proj2 (o40777_parts m1)), <- (proj2 (o40777_parts m2)).
      now rewrite !land_o40777, E. }
    apply digits_of_low in L. destruct L as (-> & -> & ->).
    now rewrite B14.
Qed.

(** ** formatSize in human-readable mode *)

Lemma roundDiv_rounds (unit size : Z) :
  0 < unit -> rounds unit size (JS.roundDiv size unit).
Proof.
  intros Hu. unfold rounds, JS.roundDiv.
  pose proof (Z.div_mod (2 * size + unit) (2 * unit)) as D.
  pose proof (Z.mod_pos_bound (2 * size + unit) (2 * unit)) as B.
  nia.
Qed.

(** The four bands of the human-readable format. *)
Lemma formatSize_units (size : Z) :
  (KiB <= size < MiB ->
     exists n, formatSize size true = JS.toString n ++ "K" /\
               rounds KiB size n /\ 1 <= n <= 1024) /\
  (MiB <= size < GiB ->
     exists n, formatSize size true = JS.toString n ++ "M" /\
               rounds MiB size n /\ 1 <= n <= 1024) /\
  (GiB <= size < TiB ->
     exists n, formatSize size true = JS.toString n ++ "G" /\
               rounds GiB size n /\ 1 <= n <= 1024) /\
  (TiB <= size ->
     exists n, formatSize size true = JS.toString n ++ "T" /\
               rounds TiB size n /\ 1 <= n).
Proof.
  unfold KiB, MiB, GiB, TiB, formatSize. cbn [negb].
  repeat split; intros Hs.
  all: repeat match goal with
         | |- context [?a <? ?b] => destruct (Z.ltb_spec a b); try lia
         end.
  - exists (JS.roundDiv size 1024). split; [reflexivity |].
    pose proof (roundDiv_rounds 1024 size ltac:(lia)) as R.
    split; [exact R | unfold rounds in R; lia].
  - exists (JS.roundDiv size (1024 * 1024)). split; [reflexivity |].
    pose proof (roundDiv_rounds (1024 * 1024) size ltac:(lia)) as R.
    split; [exact R | unfold rounds in R; lia].
  - exists (JS.roundDiv size (1024 * 1024 * 1024)). split; [reflexivity |].
    pose proof (roundDiv_rounds (1024 * 1024 * 1024) size ltac:(lia)) as R.
    split; [exact R | unfold rounds in R; lia].
  - exists (JS.roundDiv size (1024 * 1024 * 1024 * 1024)).
    split; [reflexivity |].
    pose proof (roundDiv_rounds (1024 * 1024 * 1024 * 1024) size ltac:(lia))
      as R.
    split; [exact R | unfold rounds in R; lia].
Qed.

(** X7: from 1024 bytes on, the human-readable size is the byte count
    divided by the largest unit not above it, rounded to the nearest
    integer with a half going up, followed by the letter of the unit.  The
    number shown is at least 1 and, because of the rounding, can be 1024
    itself just below the next unit. *)
Theorem formatSize_scaled (size : Z) :
  (KiB <= size < MiB ->
     exists n, formatSize size true = JS.toString n ++ "K" /\
               rounds KiB size n /\ 1 <= n <= 1024) /\
  (MiB <= size < GiB ->
     exists n, formatSize size true = JS.toString n ++ "M" /\
               rounds MiB size n /\ 1 <= n <= 1024) /\
  (GiB <= size < TiB ->
     exists n, formatSize size true = JS.toString n ++ "G" /\
               rounds GiB size n /\ 1 <= n <= 1024) /\
  (TiB <= size ->
     exists n, formatSize size true = JS.toString n ++ "T" /\
               rounds TiB size n /\ 1 <= n).
Proof. exact (formatSize_units size). Qed.

(** One byte below a mebibyte is shown as 1024K. *)
Lemma formatSize_scaled_witness :
  exists n, formatSize 1048575 true = JS.toString n ++ "K" /\
            rounds KiB 1048575 n /\ 1 <= n <= 1024.
Proof.
  apply (proj1 (formatSize_scaled 1048575)). unfold KiB, MiB. lia.
Defined.

(** ** The width of the size column *)

Lemma length_append (s t : string) :
  String.length (s ++ t) = (String.length s + String.length t)%nat.
Proof. induction s as [| c s IH]; cbn; [reflexivity | now rewrite IH]. Qed.

Lemma length_spaces (n : nat) : String.length (JS.spaces n) = n.
Proof. induction n as [| n IH]; cbn; [reflexivity | now rewrite IH]. Qed.

(** [padStart] never cuts: the result has the asked width, or the width of
    the string when that is larger. *)
Lemma padStart_length (n : nat) (s : string) :
  String.length (JS.padStart n s) = Nat.max n (String.length s).
Proof.
  unfold JS.padStart. rewrite length_append, length_spaces. lia.
Qed.

Lemma toString_short (n : Z) :
  0 <= n < 10000 -> (String.length (JS.toString n) <= 4)%nat.
Proof.
  intros Hn.
  assert (A : forallb
                (fun k => String.length (JS.toString (Z.of_nat k)) <=? 4)%nat
                (seq 0 (Z.to_nat 10000)) = true) by (vm_compute; reflexivity).
  rewrite forallb_forall in A.
  specialize (A (Z.to_nat n)).
  rewrite Z2Nat.id in A by lia.
  apply Nat.leb_le, A, in_seq. lia.
Qed.

(** X8: in human-readable mode a size below 1024 tebibytes is written with
    at most five characters, so the padded size column of the long format
    is exactly eight characters wide. *)
Theorem human_size_width (size : Z) :
  0 <= size < 1024 * TiB ->
  (String.length (formatSize size true) <= 5)%nat /\
  String.length (JS.padStart 8 (formatSize size true)) = 8%nat.
Proof.
  intros Hs.
  assert (L : (String.length (formatSize size true) <= 5)%nat).
  { destruct (Z.lt_ge_cases size KiB) as [Hk | Hk].
    - unfold formatSize. cbn [negb]. unfold KiB in Hk.
      destruct (Z.ltb_spec size 1024); [| lia].
      pose proof (toString_short size). lia.
    - destruct (formatSize_units size) as (HK & HM & HG & HT).
      unfold KiB, MiB, GiB, TiB in *.
      assert (C : size < 1024 * 1024 \/
                  1024 * 1024 <= size < 1024 * 1024 * 1024 \/
                  1024 * 1024 * 1024 <= size < 1024 * 1024 * 1024 * 1024 \/
                  1024 * 1024 * 1024 * 1024 <= size) by lia.
      destruct C as [C | [C | [C | C]]];
        [destruct HK as (n & -> & R & B); [lia |]
        | destruct HM as (n & -> & R & B); [lia |]
        | destruct HG as (n & -> & R & B); [lia |]
        | destruct HT as (n & -> & R & B); [lia |]];
        rewrite length_append; cbn [String.length];
        unfold rounds in R;
        pose proof (toString_short n); lia. }
  split; [exact L |]. rewrite padStart_length. lia.
Qed.

Lemma human_size_width_witness :
  (String.length (formatSize 1048575 true) <= 5)%nat /\
  String.length (JS.padStart 8 (formatSize 1048575 true)) = 8%nat.
Proof. apply (human_size_width 1048575). unfold TiB. lia. Defined.

(** ** parseDefaultOptions *)

Lemma append_nil_r (s : string) : s ++ "" = s.
Proof. induction s as [| c s IH]; cbn; [reflexivity | now rewrite IH]. Qed.

Lemma append_assoc (s t u : string) : (s ++ t) ++ u = s ++ t ++ u.
Proof. induction s as [| c s IH]; cbn; [reflexivity | now rewrite IH]. Qed.

Lemma splitWords_unfold (c : ascii) (s cur : string) :
  splitWords (String c s) cur =
    match spaceAt (String c s) with
    | Some rest => pushWord cur (splitWords rest "")
    | None => splitWords s (cur ++ String c "")
    end.
Proof.
  cbn [splitWords spaceAt]. cbv zeta.
  destruct (isSpace c); [reflexivity |].
  destruct s as [| c2 s2]; [reflexivity |].
  destruct (isSpace2 c c2); [reflexivity |].
  destruct s2 as [| c3 s3]; [reflexivity |].
  destruct (isSpace3 c c2 c3); reflexivity.
Qed.

Lemma stripSpaces_unfold (c : ascii) (s : string) :
  stripSpaces (String c s) =
    match spaceAt (String c s) with
    | Some rest => stripSpaces rest
    | None => String c (stripSpaces s)
    end.
Proof.
  cbn [stripSpaces spaceAt]. cbv zeta.
  destruct (isSpace c); [reflexivity |].
  destruct s as [| c2 s2]; [reflexivity |].
  destruct (isSpace2 c c2); [reflexivity |].
  destruct s2 as [| c3 s3]; [reflexivity |].
  destruct (isSpace3 c c2 c3); reflexivity.
Qed.

Lemma spaceAt_shorter (s rest : string) :
  spaceAt s = Some rest -> (String.length rest < String.length s)%nat.
Proof.
  unfold spaceAt. destruct s as [| c1 s1]; [discriminate |].
  destruct (isSpace c1); [intros [= <-]; cbn; lia |].
  destruct s1 as [| c2 s2]; [discriminate |].
  destruct (isSpace2 c1 c2); [intros [= <-]; cbn; lia |].
  destruct s2 as [| c3 s3]; [discriminate |].
  destruct (isSpace3 c1 c2 c3); [intros [= <-]; cbn; lia | discriminate].
Qed.

(** A white-space character at the start of a text is still there when
    the text goes on. *)
Lemma startsSpace_app (p q : string) :
  startsSpace p = true -> startsSpace (p ++ q) = true.
Proof.
  unfold startsSpace, spaceAt.
  destruct p as [| c1 s1]; [discriminate |]. cbn [append].
  destruct (isSpace c1); [reflexivity |].
  destruct s1 as [| c2 s2]; [discriminate |]. cbn [append].
  destruct (isSpace2 c1 c2); [reflexivity |].
  destruct s2 as [| c3 s3]; [discriminate |]. cbn [append].
  destruct (isSpace3 c1 c2 c3); [reflexivity | discriminate].
Qed.

Lemma cleanBefore_noSpace (cur s : string) :
  cleanBefore cur s = true -> noSpace cur = true.
Proof.
  induction cur as [| c cur IH]; [reflexivity |].
  cbn [cleanBefore noSpace]. intros H.
  apply andb_true_iff in H. destruct H as [H1 H2].
  rewrite (IH H2), andb_true_r.
  destruct (startsSpace (String c cur)) eqn:E; [| reflexivity].
  apply (startsSpace_app _ s) in E. now rewrite E in H1.
Qed.

Lemma cleanBefore_step (cur s : string) (c : ascii) :
  cleanBefore cur (String c s) = true ->
  startsSpace (String c s) = false ->
  cleanBefore (cur ++ String c "") s = true.
Proof.
  intros Hcur Hc. induction cur as [| d cur IH]; cbn [append cleanBefore].
  - now rewrite Hc.
  - cbn [cleanBefore] in Hcur.
    apply andb_true_iff in Hcur. destruct Hcur as [H1 H2].
    rewrite (IH H2), andb_true_r.
    rewrite append_assoc. exact H1.
Qed.

Lemma concat_cons (w : string) (ws : list string) :
  String.concat "" (w :: ws) = w ++ String.concat "" ws.
Proof.
  destruct ws as [| w' ws]; cbn [String.concat];
    [now rewrite append_nil_r | reflexivity].
Qed.

Lemma pushWord_words (cur : string) (ws : list string) :
  noSpace cur = true -> Forall isWord ws ->
  Forall isWord (pushWord cur ws) /\
  String.concat "" (pushWord cur ws) = cur ++ String.concat "" ws.
Proof.
  intros Hcur Hws. destruct cur as [| c cur]; cbn [pushWord].
  - split; [exact Hws | reflexivity].
  - split; [| apply concat_cons].
    constructor; [split; [discriminate | exact Hcur] | exact Hws].
Qed.

(** The loop of the split: with a run [cur] in hand that no white space
    starts in, the words are words, and together they are [cur] followed
    by the rest of the text without its white space. *)
Lemma splitWords_words (n : nat) :
  forall s cur, (String.length s <= n)%nat -> cleanBefore cur s = true ->
    Forall isWord (splitWords s cur) /\
    String.concat "" (splitWords s cur) = cur ++ stripSpaces s.
Proof.
  induction n as [| n IH]; intros s cur Hlen Hcur.
  - destruct s; [| cbn in Hlen; lia].
    cbn [splitWords stripSpaces].
    destruct (pushWord_words cur [] (cleanBefore_noSpace _ _ Hcur)
                (Forall_nil _)) as [W C].
    split; [exact W | exact C].
  - destruct s as [| c s].
    + cbn [splitWords stripSpaces].
      destruct (pushWord_words cur [] (cleanBefore_noSpace _ _ Hcur)
                  (Forall_nil _)) as [W C].
      split; [exact W | exact C].
    + rewrite splitWords_unfold, stripSpaces_unfold.
      destruct (spaceAt (String c s)) as [rest |] eqn:E.
      * pose proof (spaceAt_shorter _ _ E) as Hshort. cbn in Hlen, Hshort.
        destruct (IH rest "" ltac:(lia) eq_refl) as [W C].
        destruct (pushWord_words cur _ (cleanBefore_noSpace _ _ Hcur) W)
          as [W' C'].
        split; [exact W' |]. rewrite C', C. reflexivity.
      * assert (Hc : startsSpace (String c s) = false)
          by (unfold startsSpace; now rewrite E).
        cbn in Hlen.
        destruct (IH s (cur ++ String c "") ltac:(lia)
                    (cleanBefore_step _ _ _ Hcur Hc)) as [W C].
        split; [exact W |]. rewrite C. now rewrite append_assoc.
Qed.

Lemma concat_words_nil (ws : list string) :
  Forall isWord ws -> String.concat "" ws = "" -> ws = [].
Proof.
  intros W C. destruct ws as [| w ws]; [reflexivity |].
  inversion W as [| ? ? [Hw _] _]; subst.
  destruct w as [| c w]; [contradiction |].
  destruct ws; cbn in C; discriminate.
Qed.

(** X9: the default options read from [LS_OPTIONS] are words, none empty
    and none with a white-space character of [\s] in it; put together they
    are the text of the variable without its white space; and there are
    none exactly when the variable is unset, empty or all white space. *)
Theorem parseDefaultOptions_words (h : Host) :
  Forall isWord (parseDefaultOptions h) /\
  String.concat "" (parseDefaultOptions h) = stripSpaces (envText h) /\
  (parseDefaultOptions h = [] <-> stripSpaces (envText h) = "").
Proof.
  assert (A : Forall isWord (parseDefaultOptions h) /\
              String.concat "" (parseDefaultOptions h)
              = stripSpaces (envText h)).
  { unfold parseDefaultOptions, envText.
    destruct (LS_OPTIONS h) as [env |]; [| split; [constructor | reflexivity]].
    destruct (String.eqb_spec env "") as [-> | Hne].
    - split; [constructor | reflexivity].
    - apply (splitWords_words (String.length env) env "" (le_n _) eq_refl). }
  destruct A as [W C]. split; [exact W | split; [exact C |]].
  split.
  - intros E. rewrite <- C, E. reflexivity.
  - intros E. rewrite <- C in E. now apply concat_words_nil.
Qed.

(** No white-space character of two or three bytes holds the byte of the
    space character. *)
Lemma isSpace2_space (c : ascii) : isSpace2 c " " = false.
Proof. unfold isSpace2. apply andb_false_r. Qed.

Lemma isSpace3_space (c1 c2 : ascii) : isSpace3 c1 c2 " " = false.
Proof.
  unfold isSpace3. cbv zeta.
  change (isByte 128 " ") with false. change (isByte 159 " ") with false.
  change (isByte 168 " ") with false. change (isByte 169 " ") with false.
  change (isByte 175 " ") with false. change (isByte 191 " ") with false.
  change (nat_of_ascii " ") with 32%nat. cbn [Nat.leb andb orb].
  now rewrite !andb_false_r.
Qed.

Lemma isSpace3_space_mid (c1 c3 : ascii) : isSpace3 c1 " " c3 = false.
Proof.
  unfold isSpace3. cbv zeta.
  change (isByte 154 " ") with false. change (isByte 128 " ") with false.
  change (isByte 129 " ") with false. change (isByte 187 " ") with false.
  now rewrite !andb_false_r.
Qed.

(** A text that does not start with white space does not start with it
    when a space follows the text. *)
Lemma startsSpace_before_space (c : ascii) (u r : string) :
  startsSpace (String c u) = false ->
  startsSpace (String c (u ++ String " " r)) = false.
Proof.
  unfold startsSpace, spaceAt.
  destruct (isSpace c); [discriminate |].
  destruct u as [| c2 u2]; cbn [append].
  - intros _. rewrite isSpace2_space.
    destruct r as [| c3 r3]; [reflexivity |].
    now rewrite isSpace3_space_mid.
  - destruct (isSpace2 c c2); [discriminate |].
    destruct u2 as [| c3 u3]; cbn [append].
    + intros _. now rewrite isSpace3_space.
    + destruct (isSpace3 c c2 c3); [discriminate | reflexivity].
Qed.

Lemma noSpace_cleanBefore_space (w r : string) :
  noSpace w = true -> cleanBefore w (String " " r) = true.
Proof.
  induction w as [| c w IH]; [reflexivity |].
  cbn [noSpace cleanBefore append]. intros H.
  apply andb_true_iff in H. destruct H as [H1 H2].
  apply negb_true_iff in H1.
  rewrite (IH H2), andb_true_r.
  now rewrite startsSpace_before_space.
Qed.

Lemma noSpace_cleanBefore_end (w : string) :
  noSpace w = true -> cleanBefore w "" = true.
Proof.
  induction w as [| c w IH]; [reflexivity |].
  cbn [noSpace cleanBefore]. rewrite append_nil_r. intros H.
  apply andb_true_iff in H. destruct H as [H1 H2].
  now rewrite H1, (IH H2).
Qed.

Lemma splitWords_word (w : string) :
  forall rest cur, cleanBefore w rest = true ->
    splitWords (w ++ rest) cur = splitWords rest (cur ++ w).
Proof.
  induction w as [| c w IH]; intros rest cur Hw; cbn [append].
  - now rewrite append_nil_r.
  - cbn [cleanBefore append] in Hw.
    apply andb_true_iff in Hw. destruct Hw as [H1 H2].
    apply negb_true_iff in H1. unfold startsSpace in H1.
    rewrite splitWords_unfold.
    destruct (spaceAt (String c (w ++ rest))); [discriminate |].
    rewrite IH by exact H2. now rewrite append_assoc.
Qed.

Lemma splitWords_join (ws : list string) :
  Forall isWord ws -> splitWords (String.concat " " ws) "" = ws.
Proof.
  induction ws as [| w ws IH]; intros W; [reflexivity |].
  inversion W as [| ? ? [Hne Hw] W']; subst.
  destruct ws as [| w' ws'].
  - cbn [String.concat].
    rewrite <- (append_nil_r w) at 1.
    rewrite splitWords_word by (now apply noSpace_cleanBefore_end).
    cbn [append splitWords pushWord].
    destruct w; [contradiction | reflexivity].
  - change (String.concat " " (w :: w' :: ws'))
      with (w ++ " " ++ String.concat " " (w' :: ws')).
    rewrite splitWords_word by (now apply noSpace_cleanBefore_space).
    cbn [append]. rewrite splitWords_unfold.
    change (spaceAt (String " " (String.concat " " (w' :: ws'))))
      with (Some (String.concat " " (w' :: ws'))).
    cbv beta iota. rewrite IH by exact W'.
    destruct w; [contradiction | reflexivity].
Qed.

(** X10: words written into [LS_OPTIONS] with one space between them are
    read back as they were written. *)
Theorem parseDefaultOptions_of_words (h : Host) (ws : list string) :
  Forall isWord ws ->
  LS_OPTIONS h = Some (String.concat " " ws) ->
  parseDefaultOptions h = ws.
Proof.
  intros W E. unfold parseDefaultOptions. rewrite E.
  destruct (String.eqb_spec (String.concat " " ws) "") as [Hnil | _].
  - destruct ws as [| w ws']; [reflexivity |].
    inversion W as [| ? ? [Hne _] _]; subst.
    destruct w as [| c w]; [contradiction |].
    destruct ws'; cbn in Hnil; discriminate.
  - now apply splitWords_join.
Qed.

Lemma parseDefaultOptions_of_words_witness :
  parseDefaultOptions (sampleHostEnv "-F --color=always")
    = ["-F"; "--color=always"].
Proof.
  apply (parseDefaultOptions_of_words
           (sampleHostEnv "-F --color=always") ["-F"; "--color=always"]).
  - repeat constructor; discriminate.
  - reflexivity.
Defined.

(** A no-break space, U+00A0, separates options as a space does, and is
    not part of a word. *)
Example no_break_space_splits :
  parseDefaultOptions
    (sampleHostEnv ("-l" ++ String "194" (String "160" "-a")))
    = ["-l"; "-a"] /\
  noSpace ("-l" ++ String "194" (String "160" "-a")) = false.
Proof. split; reflexivity. Qed.

(** ** More on the collecting loop *)

Lemma collected_names (h : Host) (directory : string) (opts : Opts)
    (entries : list string) :
  map name (collected h directory opts entries)
    = filter (kept h directory opts) entries.
Proof.
  induction entries as [| e rest IH]; cbn [collected filter map];
    [reflexivity |].
  unfold kept at 1, statOk. destruct (skipped opts e); cbn [negb andb];
    [exact IH |].
  destruct (stat h (path_join h directory e)); [exact IH |].
  cbn [map name itemOf]. now rewrite IH.
Qed.

Lemma collected_lengths (h : Host) (directory : string) (opts : Opts)
    (entries : list string) :
  (List.length (collected h directory opts entries)
   + List.length (warnings h directory opts entries))%nat
  = List.length (filter (fun e => negb (skipped opts e)) entries).
Proof.
  induction entries as [| e rest IH]; cbn [collected warnings filter];
    [reflexivity |].
  destruct (skipped opts e); cbn [negb]; [exact IH |].
  destruct (stat h (path_join h directory e)); cbn [List.length]; lia.
Qed.

(** X11: the items come out of the loop in the order of the directory
    listing: their names are the listed entries that are queried with
    success, in that order and as often as listed; each item carries the
    joined path that was queried and the [Stats] the query gave. *)
Theorem collect_in_order (h : Host) (directory : string) (opts : Opts)
    (entries : list string) (c : Console) :
  exists (items : list Item) (c' : Console),
    collect h directory opts entries [] c = (Done items, c') /\
    map name items = filter (kept h directory opts) entries /\
    Forall (fun it => fullPath it = path_join h directory (name it) /\
                      stat h (fullPath it) = inr (stats it)) items.
Proof.
  eexists. eexists. split; [apply collect_spec |]. cbn [app].
  split; [apply collected_names |].
  apply Forall_forall. intros it Hit. apply In_collected in Hit.
  destruct Hit as (e & st & _ & _ & Hst & ->). cbn.
  split; [reflexivity | exact Hst].
Qed.

(** X12: the loop writes nothing to the output stream, and every entry it
    does not skip ends as exactly one item or exactly one line on the error
    stream: the items and the new error lines together are as many as the
    entries not skipped. *)
Theorem collect_accounts (h : Host) (directory : string) (opts : Opts)
    (entries : list string) (c : Console) :
  exists (items : list Item) (c' : Console) (lines : list string),
    collect h directory opts entries [] c = (Done items, c') /\
    stdout c' = stdout c /\
    stderr c' = (stderr c ++ lines)%list /\
    (List.length items + List.length lines)%nat
      = List.length (filter (fun e => negb (skipped opts e)) entries).
Proof.
  eexists. eexists. eexists. split; [apply collect_spec |]. cbn [app].
  split; [reflexivity | split; [reflexivity |]].
  apply collected_lengths.
Qed.

Lemma sortItems_length (h : Host) (items : list Item) (opts : Opts) :
  List.length (sortItems h items opts) = List.length items.
Proof.
  unfold sortItems. cbv zeta.
  assert (L : forall l : list Item,
            List.length (if opt_reverse opts then rev l else l)
            = List.length l).
  { intros l. destruct (opt_reverse opts); [apply length_rev | reflexivity]. }
  rewrite L. symmetry. apply Permutation_length.
  destruct (opt_size opts); [| destruct (opt_time opts)];
    apply Array_sort_perm.
Qed.

(** X13: when the directory can be read, the long format prints one line
    for each entry that is queried with success, and the short format
    prints exactly one line; for a directory with nothing to list that one
    line is empty. *)
Theorem listDirectory_line_count (h : Host) (directory : string)
    (opts : Opts) (entries : list string) (c : Console) :
  readdir h directory = inr entries ->
  exists (c' : Console) (lines : list string),
    listDirectory h directory opts c = (Done tt, c') /\
    stdout c' = (stdout c ++ lines)%list /\
    List.length lines =
      (if opt_long opts
       then List.length (filter (kept h directory opts) entries)
       else 1%nat) /\
    (opt_long opts = false ->
     filter (kept h directory opts) entries = [] -> lines = [""]).
Proof.
  intros Hrd. eexists. eexists.
  split; [apply listDirectory_readable; exact Hrd |].
  split; [reflexivity |].
  unfold listing. cbv zeta. split.
  - destruct (opt_long opts); [| reflexivity].
    rewrite length_map, sortItems_length.
    rewrite <- collected_names. now rewrite length_map.
  - intros Hlong Hnone. rewrite Hlong.
    rewrite <- collected_names in Hnone.
    apply map_eq_nil in Hnone. rewrite Hnone.
    assert (E : sortItems h [] opts = []).
    { pose proof (sortItems_length h [] opts) as L.
      now destruct (sortItems h [] opts). }
    rewrite E. reflexivity.
Qed.

Lemma listDirectory_line_count_witness :
  exists (c' : Console) (lines : list string),
    listDirectory sampleHost "." (sizeOpts false) console0 = (Done tt, c') /\
    stdout c' = lines /\ List.length lines = 1%nat.
Proof.
  destruct (listDirectory_line_count sampleHost "." (sizeOpts false)
              ["b.txt"; ".hidden"; "gone"; "a.txt"] console0 eq_refl)
    as (c' & lines & Hrun & Hout & Hlen & _).
  exists c', lines. split; [exact Hrun | split; [exact Hout | exact Hlen]].
Defined.

(** ** The outcome of main *)

Lemma main_cases (h : Host) (argv : list string) (c : Console) :
  (exists message,
     parseArgs h (parseDefaultOptions h ++ argv)%list = inl message /\
     main h argv c =
       (Exited 1, {| stdout := stdout c;
                     stderr :=
                       (stderr c ++ [("Error: " ++ message)%string])%list |}))
  \/
  (exists o positionals,
     parseArgs h (parseDefaultOptions h ++ argv)%list
       = inr (o, positionals) /\ opt_help o = true /\
     main h argv c =
       (Done tt, {| stdout := (stdout c ++ [usage])%list;
                    stderr := stderr c |}))
  \/
  (exists o positionals message,
     parseArgs h (parseDefaultOptions h ++ argv)%list
       = inr (o, positionals) /\ opt_help o = false /\
     readdir h (directoryOf positionals) = inl message /\
     main h argv c =
       (Exited 1,
        {| stdout := stdout c;
           stderr :=
             (stderr c ++
              [cannotAccess (directoryOf positionals) message])%list |}))
  \/
  (exists o positionals entries c',
     parseArgs h (parseDefaultOptions h ++ argv)%list
       = inr (o, positionals) /\ opt_help o = false /\
     readdir h (directoryOf positionals) = inr entries /\
     main h argv c = (Done tt, c')).
Proof.
  unfold main. cbv zeta.
  destruct (parseArgs h (parseDefaultOptions h ++ argv)%list)
    as [message | [o positionals]] eqn:Hparse.
  - left. exists message. split; reflexivity.
  - right. destruct (opt_help o) eqn:Hhelp.
    + left. exists o, positionals. rewrite Hhelp.
      split; [reflexivity | split; reflexivity].
    + right.
      destruct (readdir h (directoryOf positionals)) as [message | entries]
        eqn:Hrd.
      * left. exists o, positionals, message. rewrite Hhelp.
        split; [reflexivity | split; [reflexivity | split; [exact Hrd |]]].
        now apply listDirectory_unreadable.
      * right. eexists o, positionals, entries, _. rewrite Hhelp.
        split; [reflexivity | split; [reflexivity | split; [exact Hrd |]]].
        apply (listDirectory_readable _ _ _ entries). exact Hrd.
Qed.

(** X14: a run of [main] ends with status 0 or 1, and with 0 exactly when
    the arguments parse and either help is asked for or the directory can
    be read; failed queries of single entries do not enter into it. *)
Theorem main_status (h : Host) (argv : list string) (c : Console) :
  (statusOf (main h argv c) = 0 \/ statusOf (main h argv c) = 1) /\
  (statusOf (main h argv c) = 0 <->
   exists o positionals,
     parseArgs h (parseDefaultOptions h ++ argv)%list
       = inr (o, positionals) /\
     (opt_help o = true \/
      exists entries, readdir h (directoryOf positionals) = inr entries)).
Proof.
  unfold statusOf.
  destruct (main_cases h argv c)
    as [(m & Hp & ->) | [(o & ps & Hp & Hh & ->)
       | [(o & ps & m & Hp & Hh & Hr & ->)
       | (o & ps & es & c' & Hp & Hh & Hr & ->)]]]; cbn [fst exitCode].
  - split; [now right |]. split; [discriminate |].
    intros (o & ps & Hp' & _). congruence.
  - split; [now left |]. split; [| reflexivity].
    intros _. exists o, ps. split; [exact Hp | now left].
  - split; [now right |]. split; [discriminate |].
    intros (o' & ps' & Hp' & [Hh' | (es & Hr')]).
    + congruence.
    + assert (ps' = ps) by congruence. subst ps'. congruence.
  - split; [now left |]. split; [| reflexivity].
    intros _. exists o, ps. split; [exact Hp | right; now exists es].
Qed.

(** X15: a run of [main] that ends with a status other than 0 has written
    nothing to the output stream and exactly one line to the error stream;
    a run asked for help has written the usage text and nothing else. *)
Theorem main_failure_output (h : Host) (argv : list string) (c : Console) :
  (statusOf (main h argv c) <> 0 ->
     stdout (consoleAfter (main h argv c)) = stdout c /\
     exists line,
       stderr (consoleAfter (main h argv c)) = (stderr c ++ [line])%list) /\
  (forall o positionals,
     parseArgs h (parseDefaultOptions h ++ argv)%list
       = inr (o, positionals) ->
     opt_help o = true ->
     stdout (consoleAfter (main h argv c)) = (stdout c ++ [usage])%list /\
     stderr (consoleAfter (main h argv c)) = stderr c).
Proof.
  unfold statusOf, consoleAfter.
  destruct (main_cases h argv c)
    as [(m & Hp & ->) | [(o & ps & Hp & Hh & ->)
       | [(o & ps & m & Hp & Hh & Hr & ->)
       | (o & ps & es & c' & Hp & Hh & Hr & ->)]]];
    cbn [fst snd exitCode stdout stderr].
  - split.
    + intros _. split; [reflexivity | eexists; reflexivity].
    + intros o ps Hp'. congruence.
  - split.
    + intros H. contradiction.
    + intros _ _ _ _. split; reflexivity.
  - split.
    + intros _. split; [reflexivity | eexists; reflexivity].
    + intros o' ps' Hp' Hh'. congruence.
  - split.
    + intros H. contradiction.
    + intros o' ps' Hp' Hh'. congruence.
Qed.

Lemma main_failure_output_witness :
  stdout (consoleAfter (main missingDirHost [] console0)) = [] /\
  exists line,
    stderr (consoleAfter (main missingDirHost [] console0)) = [line].
Proof.
  apply (proj1 (main_failure_output missingDirHost [] console0)).
  discriminate.
Defined.

(** ** More on the default behaviour *)

Lemma onlyLongOption_true (argv : list string) :
  onlyLongOption argv = true <-> argv = ["-l"].
Proof.
  unfold onlyLongOption. split.
  - destruct argv as [| a [| b rest]]; cbn; try discriminate.
    destruct (String.eqb_spec a "-l"); [now subst | discriminate].
  - intros ->. reflexivity.
Qed.

(** X16: the default behaviour is kept for the command lines without a
    dash argument and for the command line that is exactly [-l], and for no
    other: a command line with a dash argument that is not exactly [-l],
    such as [-l] followed by a directory, leaves the options as parsed. *)
Theorem defaultBehavior_untouched (argv : list string) (opts : Opts) :
  userSpecifiedOptions argv = true -> argv <> ["-l"] ->
  defaultBehavior argv opts = opts.
Proof.
  intros Hu Hne. unfold defaultBehavior. rewrite Hu.
  destruct (onlyLongOption argv) eqn:Hl; [| reflexivity].
  apply onlyLongOption_true in Hl. contradiction.
Qed.

Lemma defaultBehavior_untouched_witness :
  defaultBehavior ["-l"; "dir"] defaults = defaults.
Proof.
  apply (defaultBehavior_untouched ["-l"; "dir"] defaults).
  - reflexivity.
  - discriminate.
Defined.

(** X17: whatever the command line, the default behaviour changes at most
    [classify] and [color]: it never turns [classify] off, it changes the
    colour option only from [auto] to [always], it leaves every other
    option as parsed, and applying it twice is applying it once. *)
Theorem defaultBehavior_shape (argv : list string) (opts : Opts) :
  (opt_classify opts = true ->
     opt_classify (defaultBehavior argv opts) = true) /\
  (opt_color (defaultBehavior argv opts) = opt_color opts \/
   (opt_color opts = "auto" /\
    opt_color (defaultBehavior argv opts) = "always")) /\
  set_classify (opt_classify opts)
    (set_color (opt_color opts) (defaultBehavior argv opts)) = opts /\
  defaultBehavior argv (defaultBehavior argv opts) = defaultBehavior argv opts.
Proof.
  unfold defaultBehavior.
  destruct (negb (userSpecifiedOptions argv) || onlyLongOption argv).
  - destruct opts as [l a cl co sz t r hr hp]. cbn.
    destruct (String.eqb_spec co "auto") as [Hc | Hc]; cbn.
    + subst co.
      split; [reflexivity | split; [right; split; reflexivity |]].
      split; reflexivity.
    + split; [reflexivity | split; [left; reflexivity |]].
      split; [reflexivity |].
      destruct (String.eqb_spec co "auto"); [contradiction | reflexivity].
  - split; [tauto | split; [left; reflexivity |]].
    split; [destruct opts; reflexivity | reflexivity].
Qed.

(** ** Output without colour *)

Lemma occurs_append (c : ascii) (s t : string) :
  occurs c (s ++ t) = occurs c s || occurs c t.
Proof.
  induction s as [| d s IH]; cbn; [reflexivity |].
  rewrite IH. now rewrite orb_assoc.
Qed.

Lemma plain_append (s t : string) : plain s -> plain t -> plain (s ++ t).
Proof.
  unfold plain. intros Hs Ht. now rewrite occurs_append, Hs, Ht.
Qed.

Lemma plain_join (sep : string) (l : list string) :
  plain sep -> Forall plain l -> plain (JS.join sep l).
Proof.
  intros Hsep. unfold JS.join.
  induction 1 as [| s l Hs Hl IH]; [reflexivity |].
  destruct l as [| s' l']; [exact Hs |].
  change (String.concat sep (s :: s' :: l'))
    with (s ++ sep ++ String.concat sep (s' :: l')).
  auto using plain_append.
Qed.

Lemma plain_uint (d : Decimal.uint) : plain (NilEmpty.string_of_uint d).
Proof. unfold plain. induction d; cbn; auto. Qed.

Lemma plain_digitsOf (z : Z) : plain (JS.digitsOf z).
Proof.
  unfold JS.digitsOf, NilZero.string_of_int, NilZero.string_of_uint.
  destruct (Z.to_int z) as [d | d]; destruct d;
    first [reflexivity | apply plain_uint
          | apply (plain_append "-"); [reflexivity |];
            first [reflexivity | apply plain_uint]].
Qed.

Lemma plain_formatDigits (x t : Z) : plain (JS.formatDigits x t).
Proof.
  unfold JS.formatDigits. cbv zeta.
  destruct (_ <=? 21); [apply plain_digitsOf |].
  set (n := Z.of_nat (String.length (JS.digitsOf x))).
  assert (E : plain ("e+" ++ JS.digitsOf (n - 1)))
    by (apply plain_append; [reflexivity | apply plain_digitsOf]).
  pose proof (plain_digitsOf (x / 10 ^ t)) as D.
  destruct (JS.digitsOf (x / 10 ^ t)) as [| d rest]; [exact E |].
  unfold plain in D. cbn [occurs] in D.
  apply orb_false_iff in D. destruct D as [Dd Dr].
  destruct rest as [| d' rest'].
  - unfold plain. cbn [occurs]. rewrite Dd. exact E.
  - unfold plain. cbn [occurs]. rewrite Dd. cbn [orb].
    apply (plain_append "."); [reflexivity |].
    apply plain_append; [exact Dr | exact E].
Qed.

Lemma plain_toStringPositive (v : Z) : plain (JS.toStringPositive v).
Proof.
  unfold JS.toStringPositive.
  destruct (v <? 2 ^ 53); [apply plain_digitsOf |].
  cbv zeta. destruct (JS.shortest _ _ _ _) as [x t].
  apply plain_formatDigits.
Qed.

Lemma plain_toString (z : Z) : plain (JS.toString z).
Proof.
  unfold JS.toString.
  destruct (z =? 0); [reflexivity |].
  destruct (z <? 0).
  - apply (plain_append "-"); [reflexivity | apply plain_toStringPositive].
  - apply plain_toStringPositive.
Qed.

Lemma plain_formatSize (size : Z) (humanReadable : bool) :
  plain (formatSize size humanReadable).
Proof.
  unfold formatSize.
  repeat match goal with
         | |- context [if ?b then _ else _] => destruct b
         end;
    first [apply plain_toString
          | apply plain_append; [apply plain_toString | reflexivity]].
Qed.

Lemma plain_padStart (n : nat) (s : string) :
  plain s -> plain (JS.padStart n s).
Proof.
  intros Hs. unfold JS.padStart. apply plain_append; [| exact Hs].
  unfold plain. induction (n - String.length s)%nat; cbn; auto.
Qed.

Lemma plain_formatPermissions (mode : Z) : plain (formatPermissions mode).
Proof.
  rewrite formatPermissions_digits.
  assert (G : forall v, 0 <= v < 8 -> plain (permGroup v))
    by (intros v Hv; digit_cases v; reflexivity).
  repeat apply plain_append; try (apply G, octalDigit_range).
  now destruct (Z.testbit mode 14).
Qed.

Lemma plain_indicator (st : Stats) : plain (getFileTypeIndicator st).
Proof.
  unfold getFileTypeIndicator.
  repeat match goal with
         | |- context [if ?b then _ else _] => destruct b
         end; reflexivity.
Qed.

Lemma sortItems_perm (h : Host) (items : list Item) (opts : Opts) :
  Permutation items (sortItems h items opts).
Proof.
  unfold sortItems. cbv zeta.
  assert (Q : forall l : list Item,
            Permutation items l ->
            Permutation items (if opt_reverse opts then rev l else l)).
  { intros l Hl. destruct (opt_reverse opts); [| exact Hl].
    eapply perm_trans; [exact Hl | apply Permutation_rev]. }
  apply Q.
  destruct (opt_size opts); [| destruct (opt_time opts)];
    apply Array_sort_perm.
Qed.

(** X18: when colour is off (the option is [never], or it is neither
    [always] nor [never] and the output is not a terminal), the names of
    the directory hold no escape character and neither do the dates the
    host writes, then no line that [listDirectory] prints holds an escape
    character, in the long format as in the short one and with or without
    indicators. *)
Theorem listDirectory_plain (h : Host) (directory : string) (opts : Opts)
    (entries : list string) (c : Console) :
  readdir h directory = inr entries ->
  shouldUseColor h (opt_color opts) = false ->
  Forall plain entries ->
  (forall t, plain (toLocaleDateString h t) /\
             plain (toLocaleTimeString h t)) ->
  exists (c' : Console) (lines : list string),
    listDirectory h directory opts c = (Done tt, c') /\
    stdout c' = (stdout c ++ lines)%list /\
    Forall plain lines.
Proof.
  intros Hrd Hcol Hnames Hdates. eexists. eexists.
  split; [apply listDirectory_readable; exact Hrd |].
  split; [reflexivity |].
  unfold listing. cbv zeta. rewrite Hcol.
  assert (N : forall it,
            In it (sortItems h (collected h directory opts entries) opts) ->
            plain (name it)).
  { intros it Hit.
    apply (Permutation_in _ (Permutation_sym (sortItems_perm h _ opts)))
      in Hit.
    apply In_collected in Hit. destruct Hit as (e & st & Hin & _ & _ & ->).
    cbn [name itemOf]. rewrite Forall_forall in Hnames. now apply Hnames. }
  assert (I : forall it, plain (if opt_classify opts
                                then getFileTypeIndicator (stats it) else ""))
    by (intros it; destruct (opt_classify opts);
        [apply plain_indicator | reflexivity]).
  destruct (opt_long opts).
  - apply Forall_forall. intros line Hline. apply in_map_iff in Hline.
    destruct Hline as (it & <- & Hit). unfold longLine. cbv zeta.
    unfold formatDate. destruct (Hdates (mtime (stats it))) as [Hd Ht].
    apply plain_append; [apply plain_formatPermissions |].
    apply plain_append; [reflexivity |].
    apply plain_append; [apply plain_padStart, plain_formatSize |].
    apply plain_append; [reflexivity |].
    apply plain_append;
      [apply plain_append;
         [exact Hd | apply plain_append; [reflexivity | exact Ht]] |].
    apply plain_append; [reflexivity |].
    apply plain_append; [apply N, Hit | apply I].
  - constructor; [| constructor].
    apply plain_join; [reflexivity |].
    apply Forall_forall. intros s Hs. apply in_map_iff in Hs.
    destruct Hs as (it & <- & Hit). unfold shortName. cbv zeta.
    apply plain_append; [apply N, Hit | apply I].
Qed.

Lemma listDirectory_plain_witness :
  exists (c' : Console) (lines : list string),
    listDirectory sampleHost "." (sizeOpts false) console0 = (Done tt, c') /\
    stdout c' = lines /\ Forall plain lines.
Proof.
  destruct (listDirectory_plain sampleHost "." (sizeOpts false)
              ["b.txt"; ".hidden"; "gone"; "a.txt"] console0
              eq_refl eq_refl)
    as (c' & lines & Hrun & Hout & Hplain).
  - repeat constructor.
  - intros t. split; reflexivity.
  - exists c', lines. split; [exact Hrun | split; [exact Hout | exact Hplain]].
Defined.

(** ** The listing does not depend on the order of the directory *)

Lemma sortItems_key (h : Host) (items : list Item) (opts : Opts) :
  sortItems h items opts =
    if opt_reverse opts then rev (Array_sort (sortKey h opts) items)
    else Array_sort (sortKey h opts) items.
Proof.
  unfold sortItems, sortKey.
  destruct (opt_size opts); [| destruct (opt_time opts)]; reflexivity.
Qed.

(** Two sorted lists with the same elements are the same list when no two
    different elements may stand before each other. *)
Lemma sorted_unique {A : Type} (R : A -> A -> Prop) (l1 : list A) :
  forall l2,
    StronglySorted R l1 -> StronglySorted R l2 -> Permutation l1 l2 ->
    (forall a b, In a l1 -> In b l1 -> R a b -> R b a -> a = b) ->
    l1 = l2.
Proof.
  induction l1 as [| a l1 IH]; intros l2 S1 S2 P Hanti.
  - apply Permutation_nil in P. now subst.
  - destruct l2 as [| b l2].
    { apply Permutation_sym, Permutation_nil in P. discriminate. }
    inversion S1 as [| ? ? S1' F1]; subst.
    inversion S2 as [| ? ? S2' F2]; subst.
    assert (Eab : a = b).
    { assert (Ha : In a (b :: l2))
        by (apply (Permutation_in _ P); now left).
      assert (Hb : In b (a :: l1))
        by (apply (Permutation_in _ (Permutation_sym P)); now left).
      destruct Ha as [-> | Ha]; [reflexivity |].
      destruct Hb as [-> | Hb]; [reflexivity |].
      rewrite Forall_forall in F1, F2.
      apply Hanti; [now left | now right | now apply F1 | now apply F2]. }
    subst b. f_equal.
    apply IH; [assumption | assumption | |].
    + eapply Permutation_cons_inv, P.
    + intros x y Hx Hy. apply Hanti; now right.
Qed.

(** X19: under a consistent comparison with no ties between different
    items, [sortItems] gives the same list for the same items in any
    order: the order in which the directory was read does not show in the
    listing. *)
Theorem sortItems_any_order (h : Host) (opts : Opts)
    (items1 items2 : list Item) :
  (forall a b, 0 < sortKey h opts a b -> sortKey h opts b a <= 0) ->
  (forall a b c, sortKey h opts a b <= 0 -> sortKey h opts b c <= 0 ->
                 sortKey h opts a c <= 0) ->
  (forall a b, In a items1 -> In b items1 ->
               sortKey h opts a b <= 0 -> sortKey h opts b a <= 0 -> a = b) ->
  Permutation items1 items2 ->
  sortItems h items1 opts = sortItems h items2 opts.
Proof.
  intros Hflip Htrans Hties P.
  rewrite !sortItems_key.
  assert (E : Array_sort (sortKey h opts) items1
              = Array_sort (sortKey h opts) items2).
  { apply (sorted_unique (mayPrecede (sortKey h opts))).
    - now apply Array_sort_sorted.
    - now apply Array_sort_sorted.
    - eapply perm_trans; [apply Permutation_sym, Array_sort_perm |].
      eapply perm_trans; [exact P | apply Array_sort_perm].
    - intros a b Ha Hb. unfold mayPrecede.
      apply Hties;
        eapply Permutation_in;
        first [apply Permutation_sym, Array_sort_perm | eassumption]. }
  now rewrite E.
Qed.

Lemma sortItems_any_order_witness :
  sortItems sampleHost sampleItems (sizeOpts false)
    = sortItems sampleHost (rev sampleItems) (sizeOpts false).
Proof.
  apply (sortItems_any_order sampleHost (sizeOpts false)
           sampleItems (rev sampleItems)).
  - cbn. unfold bySize. intros; lia.
  - cbn. unfold bySize. intros; lia.
  - intros a b Ha Hb. cbn in Ha, Hb.
    destruct Ha as [<- | [<- | [<- | []]]];
      destruct Hb as [<- | [<- | [<- | []]]];
      cbn; intros; first [reflexivity | lia].
  - apply Permutation_rev.
Defined.

(** ** The default behaviour and colour together *)

(** X20: on a command line without a dash argument, or exactly [-l], a
    colour option left at [auto] gives coloured output whether or not the
    output is a terminal: every name of the short format is then wrapped in
    its colour and the reset sequence, with its indicator; a colour option
    [never] still gives none. *)
Theorem bare_invocation_colour (h : Host) (argv : list string) (o : Opts) :
  userSpecifiedOptions argv = false \/ argv = ["-l"] ->
  (opt_color o = "auto" ->
     shouldUseColor h (opt_color (defaultBehavior argv o)) = true /\
     forall item,
       shortName (defaultBehavior argv o)
         (shouldUseColor h (opt_color (defaultBehavior argv o))) item
       = getFileColor (stats item) ++ name item
           ++ getFileTypeIndicator (stats item) ++ colors.reset) /\
  (opt_color o = "never" ->
     shouldUseColor h (opt_color (defaultBehavior argv o)) = false).
Proof.
  intros Hargv.
  assert (G : negb (userSpecifiedOptions argv) || onlyLongOption argv = true).
  { destruct Hargv as [-> | ->]; reflexivity. }
  unfold defaultBehavior. rewrite G.
  destruct o as [l a cl co sz t r hr hp]. cbn.
  split; intros ->; cbn; [| reflexivity].
  split; reflexivity.
Qed.

Lemma bare_invocation_colour_witness :
  shouldUseColor sampleHost (opt_color (defaultBehavior ["dir"] defaults))
    = true /\
  isTTY sampleHost = false.
Proof.
  split; [| reflexivity].
  apply (proj1 (bare_invocation_colour sampleHost ["dir"] defaults
                  (or_introl eq_refl))).
  reflexivity.
Defined.
